(** * video2ascii: the frame-to-glyph pipeline of [video2ascii.cpp]

    A shallow embedding of the geometry resolver ([getTargetDimensions]), the
    delay derivation ([getDelayMs]), the glyph renderer ([loadFrames] with
    [brightnessToAscii], [rgbToAnsiColor], [rgbToTrueColor]) and the playback
    loop ([animateAscii]).

    - [int] is a mathematical integer with the 32-bit range checked where the
      source computes on caller-supplied [int]s (signed overflow is undefined).
    - [uchar] is [Byte.byte]; its promotion to [int] is [uchar_to_int].
    - [double] is the kernel's binary64 [float]; [static_cast<int>] truncates
      and is undefined outside the [int] range.
    - undefined behaviour (out-of-range array read, overflow, bad cast) is
      [None]. *)

From Stdlib Require Import ZArith List String Ascii Bool Lia.
From Stdlib Require Import DecimalString DecimalZ DecimalPos.
From Stdlib Require Import Floats.
From Stdlib Require QArith Qround.
Import ListNotations.

Local Open Scope string_scope.
Local Open Scope Z_scope.

(** ** C++ primitives used by the program *)

Module Cxx.

Definition INT_MAX : Z := 2147483647.
Definition INT_MIN : Z := -2147483648.

Definition in_int (z : Z) : bool := (INT_MIN <=? z) && (z <=? INT_MAX).

(** [x >>= f] on [option]: undefined behaviour propagates. *)
Definition bind {A B} (x : option A) (f : A -> option B) : option B :=
  match x with
  | Some a => f a
  | None => None
  end.

Definition checked (z : Z) : option Z := if in_int z then Some z else None.

Definition int_mul (a b : Z) : option Z := checked (a * b).
Definition int_sub (a b : Z) : option Z := checked (a - b).

(** [a / b] on [int]: truncation toward zero; division by zero is undefined. *)
Definition int_div (a b : Z) : option Z :=
  if b =? 0 then None else checked (Z.quot a b).

(** [std::clamp(v, lo, hi)]. *)
Definition clamp (v lo hi : Z) : Z :=
  if v <? lo then lo else if hi <? v then hi else v.

Definition uchar : Type := Byte.byte.

(** Integral promotion of an [unsigned char]. *)
Definition uchar_to_int (c : uchar) : Z := Z.of_N (Byte.to_N c).

Definition double : Type := float.

(** Conversion of an [int] to [double] (exact on the 32-bit range). *)
Definition int_to_double (z : Z) : double :=
  if z <? 0 then PrimFloat.opp (PrimFloat.of_uint63 (Uint63.of_Z (- z)))
  else PrimFloat.of_uint63 (Uint63.of_Z z).

(** The integer part of a finite double, rounding toward zero. *)
Definition truncate (d : double) : option Z :=
  match Prim2SF d with
  | S754_zero _ => Some 0
  | S754_finite s m e =>
      let a := Z.shiftl (Zpos m) e in
      Some (if s then - a else a)
  | S754_infinity _ | S754_nan => None
  end.

(** [static_cast<int>(d)]: the truncated value when it is representable. *)
Definition static_cast_int (d : double) : option Z :=
  bind (truncate d) checked.

(** [std::to_string(int)]. *)
Definition to_string (z : Z) : string := NilZero.string_of_int (Z.to_int z).

(** [std::max({a, b, c})] and [std::min({a, b, c})]. *)
Definition max3 (a b c : Z) : Z := Z.max (Z.max a b) c.
Definition min3 (a b c : Z) : Z := Z.min (Z.min a b) c.

End Cxx.

Import Cxx.

Notation "x <- e ;; k" := (bind e (fun x => k))
  (at level 61, e at next level, right associativity).


(** ** Global constants *)

Definition asciiChars : list ascii :=
  ["@"; "%"; "#"; "*"; "+"; "="; "-"; ":"; "."; " "]%char.
Definition asciiLen : Z := Eval cbv in Z.of_nat (List.length asciiChars).

Definition DEFAULT_TARGET_HEIGHT : Z := 60.
Definition DEFAULT_TARGET_WIDTH : Z := 0.
Definition MIN_HEIGHT : Z := 20.
Definition MIN_WIDTH : Z := 40.
Definition MAX_HEIGHT : Z := 120.
Definition MAX_WIDTH : Z := 200.

Definition DEFAULT_FRAMERATE : Z := 30.
Definition MIN_FRAMERATE : Z := 1.
Definition MAX_FRAMERATE : Z := 120.

Inductive ColorMode : Type := CM_None | CM_ANSI | CM_Full.

Definition ESC : string := String "027"%char "".

Module Color.
Definition BLACK : string := Eval cbv in ESC ++ "[30m".
Definition RED : string := Eval cbv in ESC ++ "[31m".
Definition GREEN : string := Eval cbv in ESC ++ "[32m".
Definition BLUE : string := Eval cbv in ESC ++ "[34m".
Definition WHITE : string := Eval cbv in ESC ++ "[37m".

Definition BRIGHT_BLACK : string := Eval cbv in ESC ++ "[90m".
Definition BRIGHT_RED : string := Eval cbv in ESC ++ "[91m".
Definition BRIGHT_GREEN : string := Eval cbv in ESC ++ "[92m".
Definition BRIGHT_BLUE : string := Eval cbv in ESC ++ "[94m".
Definition BRIGHT_WHITE : string := Eval cbv in ESC ++ "[97m".

Definition TRUECOLOR : string := Eval cbv in ESC ++ "[38;2;".
Definition RESET : string := Eval cbv in ESC ++ "[0m".

Definition DARK_THRESHOLD : Z := 30.
Definition GRAYSCALE_VARIANCE : Z := 20.
Definition VERY_BRIGHT : Z := 200.
Definition BRIGHT : Z := 120.
Definition MEDIUM_BRIGHT : Z := 128.
End Color.

(** ** Custom types *)

Record Options : Type := mkOptions {
  colorMode : ColorMode;
  targetHeight : Z;
  targetWidth : Z;
  framerate : Z
}.

Definition defaultOptions : Options :=
  mkOptions CM_None DEFAULT_TARGET_HEIGHT DEFAULT_TARGET_WIDTH (-1).

(** A [cv::Mat] as its rows; [Vec3b] is a pixel in B, G, R order. *)
Definition Mat (A : Type) : Type := list (list A).
Definition Vec3b : Type := (uchar * uchar * uchar)%type.

(** What the program reads from a [cv::VideoCapture]: three properties
    (each a [double]) and the decoded frames still to be read. *)
Record VideoCapture : Type := mkCapture {
  CAP_PROP_FRAME_WIDTH : double;
  CAP_PROP_FRAME_HEIGHT : double;
  CAP_PROP_FPS : double;
  pending : list (Mat Vec3b)
}.

(** Reading element [i] of a C array or row pointer; [None] out of range. *)
Definition array_at {A} (a : list A) (i : Z) : option A :=
  if (0 <=? i) && (i <? Z.of_nat (List.length a))
  then nth_error a (Z.to_nat i) else None.

(** ** Pixel functions *)

Definition brightnessToAscii (brightness : Z) : option ascii :=
  p <- int_mul brightness (asciiLen - 1) ;;
  index <- int_div p 255 ;;
  array_at asciiChars index.

Definition rgbToAnsiColor (r g b brightness : Z) : option string :=
  if brightness <? Color.DARK_THRESHOLD then Some Color.BLACK
  else
    let maxC := max3 r g b in
    let minC := min3 r g b in
    variance <- int_sub maxC minC ;;
    if variance <? Color.GRAYSCALE_VARIANCE then
      if brightness >? Color.VERY_BRIGHT then Some Color.BRIGHT_WHITE
      else if brightness >? Color.BRIGHT then Some Color.WHITE
      else Some Color.BRIGHT_BLACK
    else
      let bright := brightness >? Color.MEDIUM_BRIGHT in
      if (r >? g) && (r >? b)
      then Some (if bright then Color.BRIGHT_RED else Color.RED)
      else if (g >? r) && (g >? b)
      then Some (if bright then Color.BRIGHT_GREEN else Color.GREEN)
      else if (b >? r) && (b >? g)
      then Some (if bright then Color.BRIGHT_BLUE else Color.BLUE)
      else Some Color.WHITE.

Definition rgbToTrueColor (r g b brightness : Z) : option string :=
  let result := "" in
  let result := result ++ Color.TRUECOLOR in
  let result := result ++ to_string r in
  let result := result ++ ";" in
  let result := result ++ to_string g in
  let result := result ++ ";" in
  let result := result ++ to_string b in
  let result := result ++ "m" in
  glyph <- brightnessToAscii brightness ;;
  let result := result ++ String glyph "" in
  let result := result ++ Color.RESET in
  Some result.

(** ** Geometry and delay *)

Definition charAspect : double := 0.5%float.

Definition getTargetDimensions (cap : VideoCapture) (opts : Options)
  : option Options :=
  let videoWidth := CAP_PROP_FRAME_WIDTH cap in
  let videoHeight := CAP_PROP_FRAME_HEIGHT cap in
  let videoAspect := (videoWidth / videoHeight)%float in
  w <- (if targetWidth opts <=? 0
        then static_cast_int
               (int_to_double (targetHeight opts) * videoAspect / charAspect)%float
        else Some (targetWidth opts)) ;;
  Some (mkOptions (colorMode opts)
          (clamp (targetHeight opts) MIN_HEIGHT MAX_HEIGHT)
          (clamp w MIN_WIDTH MAX_WIDTH)
          (framerate opts)).

Definition getDelayMs (cap : VideoCapture) (opts : Options) : double :=
  if negb (framerate opts =? -1)
  then (1000.0 / int_to_double (framerate opts))%float
  else
    let fps := CAP_PROP_FPS cap in
    let fps := if (fps <=? 0)%float then int_to_double DEFAULT_FRAMERATE else fps in
    (1000.0 / fps)%float.

(** ** Rendering *)

(** [for (int i = 0; i < n; i++) body], threading the state [s]. *)
Fixpoint for_from {T : Type} (count : nat) (i : Z)
    (body : Z -> T -> option T) (s : T) : option T :=
  match count with
  | O => Some s
  | S count' => s' <- body i s ;; for_from count' (i + 1) body s'
  end.

Definition for_loop {T : Type} (n : Z) (body : Z -> T -> option T) (s : T)
  : option T :=
  for_from (Z.to_nat n) 0 body s.

(** [m.ptr<T>(y)]: the row [y] of a matrix. *)
Definition ptr {A} (m : Mat A) (y : Z) : option (list A) := array_at m y.

(** A null row pointer: every read through it is out of range. *)
Definition nullptr {A} : list A := [].

Definition newline : string := String "010"%char "".

Definition is_None (m : ColorMode) : bool :=
  match m with CM_None => true | _ => false end.

(** The body of the inner loop of [loadFrames]: one pixel appended to the
    frame's stream. *)
Definition emitPixel (opts : Options)
    (colorRowPtr : list Vec3b) (grayRowPtr : list uchar)
    (x : Z) (frameStream : string) : option string :=
  match colorMode opts with
  | CM_ANSI =>
      px <- array_at colorRowPtr x ;;
      let '(b, g, r) := px in
      let b := uchar_to_int b in
      let g := uchar_to_int g in
      let r := uchar_to_int r in
      let brightness := clamp (Z.quot (r + g + b) 3) 0 255 in
      color <- rgbToAnsiColor r g b brightness ;;
      let frameStream := frameStream ++ color in
      glyph <- brightnessToAscii brightness ;;
      let frameStream := frameStream ++ String glyph "" in
      Some (frameStream ++ Color.RESET)
  | CM_Full =>
      px <- array_at colorRowPtr x ;;
      let '(b, g, r) := px in
      let b := uchar_to_int b in
      let g := uchar_to_int g in
      let r := uchar_to_int r in
      let brightness := clamp (Z.quot (r + g + b) 3) 0 255 in
      unit <- rgbToTrueColor r g b brightness ;;
      Some (frameStream ++ unit)
  | CM_None =>
      px <- array_at grayRowPtr x ;;
      let brightness := clamp (uchar_to_int px) 0 255 in
      p <- int_mul brightness (asciiLen - 1) ;;
      index <- int_div p 255 ;;
      glyph <- array_at asciiChars index ;;
      Some (frameStream ++ String glyph "")
  end.

(** The body of the outer loop: one row and its line terminator. *)
Definition emitRow (opts : Options) (width : Z)
    (resizedColor : Mat Vec3b) (resized : Mat uchar)
    (y : Z) (frameStream : string) : option string :=
  colorRowPtr <- (if negb (is_None (colorMode opts))
                  then ptr resizedColor y else Some nullptr) ;;
  grayRowPtr <- (if is_None (colorMode opts)
                 then ptr resized y else Some nullptr) ;;
  frameStream <- for_loop width (emitPixel opts colorRowPtr grayRowPtr) frameStream ;;
  Some (frameStream ++ newline).

(** The two nested loops over a resized grid, from an empty stream. *)
Definition renderGrid (opts : Options) (height width : Z)
    (resizedColor : Mat Vec3b) (resized : Mat uchar) : option string :=
  for_loop height (emitRow opts width resizedColor resized) "".

(** The matrices [loadFrames] declares once and reuses for every frame, and
    the frame list it appends to. *)
Record LoadState : Type := mkLoadState {
  gray : Mat uchar;
  resized : Mat uchar;
  resizedColor : Mat Vec3b;
  asciiFrames : list string
}.

Definition initialLoadState : LoadState := mkLoadState [] [] [] [].

Section OpenCV.

(** The image-processing collaborators: [cv::resize] with [INTER_AREA] to a
    [cv::Size (width, height)], on colour and on grey images, and
    [cv::cvtColor] with [COLOR_BGR2GRAY]. *)
Variable resize_color : Mat Vec3b -> Z * Z -> Mat Vec3b.
Variable resize_gray : Mat uchar -> Z * Z -> Mat uchar.
Variable cvtColor_BGR2GRAY : Mat Vec3b -> Mat uchar.

(** One iteration of the [while (cap.read(frame))] loop. *)
Definition loadFrame (opts : Options) (height width : Z)
    (frame : Mat Vec3b) (st : LoadState) : option LoadState :=
  let size := (width, height) in
  let st :=
    match colorMode opts with
    | CM_ANSI | CM_Full =>
        mkLoadState (gray st) (resized st) (resize_color frame size)
          (asciiFrames st)
    | CM_None =>
        let gray' := cvtColor_BGR2GRAY frame in
        mkLoadState gray' (resize_gray gray' size) (resizedColor st)
          (asciiFrames st)
    end in
  frameStream <- renderGrid opts height width (resizedColor st) (resized st) ;;
  Some (mkLoadState (gray st) (resized st) (resizedColor st)
          (asciiFrames st ++ [frameStream])%list).

(** The loop itself, over the frames [cap.read] still has to deliver. *)
Fixpoint loadFrames (frames : list (Mat Vec3b)) (opts : Options)
    (height width : Z) (st : LoadState) : option LoadState :=
  match frames with
  | [] => Some st
  | frame :: frames' =>
      st' <- loadFrame opts height width frame st ;;
      loadFrames frames' opts height width st'
  end.

End OpenCV.

(** ** Playback *)

Inductive Event : Type :=
| Write (text : string)
| Flush
| Sleep (ms : Z)
| System (command : string).

(** The terminal as the sequence of events sent to it, oldest first. *)
Definition Terminal : Type := list Event.

Definition CLEAR_SEQ : string := Eval cbv in ESC ++ "[2J" ++ ESC ++ "[H".

Definition clearScreen (win32 : bool) (out : Terminal) : Terminal :=
  if win32 then (out ++ [System "cls"])%list
  else (out ++ [Write CLEAR_SEQ; Flush])%list.

Fixpoint animateAscii (win32 : bool) (asciiFrames : list string)
    (delayMs : double) (out : Terminal) : option Terminal :=
  match asciiFrames with
  | [] => Some out
  | frameStr :: rest =>
      let out := clearScreen win32 out in
      let out := (out ++ [Write frameStr; Flush])%list in
      ms <- static_cast_int delayMs ;;
      let out := (out ++ [Sleep ms])%list in
      animateAscii win32 rest delayMs out
  end.

(** [main] once the options are parsed and the capture is open. *)
Definition run (resize_color : Mat Vec3b -> Z * Z -> Mat Vec3b)
    (resize_gray : Mat uchar -> Z * Z -> Mat uchar)
    (cvtColor_BGR2GRAY : Mat Vec3b -> Mat uchar)
    (win32 : bool) (cap : VideoCapture) (opts : Options) : option Terminal :=
  opts <- getTargetDimensions cap opts ;;
  let delayMs := getDelayMs cap opts in
  st <- loadFrames resize_color resize_gray cvtColor_BGR2GRAY (pending cap) opts
          (targetHeight opts) (targetWidth opts) initialLoadState ;;
  animateAscii win32 (asciiFrames st) delayMs [].

(** ** Command line *)

(** What [std::stoi] does with its argument: a value, or one of the two
    exceptions it throws (both are [std::exception]s). *)
Inductive stoi_result : Type :=
| stoi_value (z : Z)
| invalid_argument
| out_of_range.

(** [isspace] and [isdigit] in the "C" locale. *)
Definition isspace (c : ascii) : bool :=
  let n := N_of_ascii c in
  (n =? 32)%N || ((9 <=? n)%N && (n <=? 13)%N).

Definition isdigit (c : ascii) : bool :=
  let n := N_of_ascii c in
  (48 <=? n)%N && (n <=? 57)%N.

Definition digit_value (c : ascii) : Z := Z.of_N (N_of_ascii c) - 48.

Fixpoint skip_space (s : string) : string :=
  match s with
  | String c s' => if isspace c then skip_space s' else s
  | EmptyString => s
  end.

(** The value of the longest run of decimal digits at the head of [s]. *)
Fixpoint digits_value (s : string) (acc : Z) : Z :=
  match s with
  | String c s' =>
      if isdigit c then digits_value s' (10 * acc + digit_value c) else acc
  | EmptyString => acc
  end.

(** [std::stoi(str)] in base 10: leading white space, an optional sign, then
    as many digits as there are; what follows the digits is ignored. No digit
    throws [invalid_argument]; a value that is not an [int] throws
    [out_of_range]. *)
Definition stoi (str : string) : stoi_result :=
  let s := skip_space str in
  let '(negative, s) :=
    match s with
    | String "-" s' => (true, s')
    | String "+" s' => (false, s')
    | _ => (false, s)
    end in
  match s with
  | String c _ =>
      if isdigit c then
        let v := digits_value s 0 in
        let v := if negative then - v else v in
        if in_int v then stoi_value v else out_of_range
      else invalid_argument
  | EmptyString => invalid_argument
  end.

(** [strncmp(s1, s2, n) == 0]: the first [n] characters agree, a shorter
    string ending where the other does. *)
Definition strncmp_is_0 (s1 s2 : string) (n : nat) : bool :=
  String.eqb (substring 0 n s1) (substring 0 n s2).

(** [s + n] on a C string of at least [n] characters. *)
Fixpoint advance (n : nat) (s : string) : string :=
  match n, s with
  | O, _ => s
  | S n', String _ s' => advance n' s'
  | S _, EmptyString => s
  end.

(** The text [printHelp] sends to [std::cerr]. *)
Definition printHelp : string :=
  "Usage: ASCIIAnimator <video_path> [options]" ++ newline ++ newline
  ++ "Options:" ++ newline
  ++ "  --color=<mode>  Color mode: none, ansi, full (default: none)" ++ newline
  ++ "  --height=<n>    Target height in num chars "
  ++ "[" ++ to_string MIN_HEIGHT ++ ", " ++ to_string MAX_HEIGHT ++ "] "
  ++ "(default: " ++ to_string DEFAULT_TARGET_HEIGHT ++ ")" ++ newline
  ++ "  --width=<n>     Target width in num chars  "
  ++ "[" ++ to_string MIN_WIDTH ++ ", " ++ to_string MAX_WIDTH ++ "] "
  ++ "(default: auto)" ++ newline
  ++ "  --framerate=<n> Target frames per second   "
  ++ "[" ++ to_string MIN_FRAMERATE ++ ", " ++ to_string MAX_FRAMERATE ++ "] "
  ++ "(default: auto)" ++ newline
  ++ "  --help          Show this help message" ++ newline.

(** The loop of [getOptions] over [argv[2]], [argv[3]], ...: the value it
    returns, the options as it leaves them and what it wrote to
    [std::cerr]. *)
Fixpoint getOptions_loop (args : list string) (opts : Options)
  : Z * Options * string :=
  match args with
  | [] => (0, opts, "")
  | arg :: rest =>
      if strncmp_is_0 arg "--color=" 8 then
        let mode := advance 8 arg in
        if (mode =? "none")%string then
          getOptions_loop rest
            (mkOptions CM_None (targetHeight opts) (targetWidth opts)
               (framerate opts))
        else if (mode =? "ansi")%string then
          getOptions_loop rest
            (mkOptions CM_ANSI (targetHeight opts) (targetWidth opts)
               (framerate opts))
        else if (mode =? "full")%string then
          getOptions_loop rest
            (mkOptions CM_Full (targetHeight opts) (targetWidth opts)
               (framerate opts))
        else (1, opts, "Unknown color mode: " ++ mode ++ newline)
      else if strncmp_is_0 arg "--height=" 9 then
        match stoi (advance 9 arg) with
        | stoi_value targetHeight' =>
            if (targetHeight' <? MIN_HEIGHT) || (targetHeight' >? MAX_HEIGHT)
            then (1, opts, "Error: Target height is out of bounds" ++ newline)
            else getOptions_loop rest
                   (mkOptions (colorMode opts) targetHeight' (targetWidth opts)
                      (framerate opts))
        | invalid_argument | out_of_range =>
            (1, opts, "Error: Invalid height value" ++ newline)
        end
      else if strncmp_is_0 arg "--width=" 8 then
        match stoi (advance 8 arg) with
        | stoi_value targetWidth' =>
            if (targetWidth' <? MIN_WIDTH) || (targetWidth' >? MAX_WIDTH)
            then (1, opts, "Error: Target width is out of bounds" ++ newline)
            else getOptions_loop rest
                   (mkOptions (colorMode opts) (targetHeight opts) targetWidth'
                      (framerate opts))
        | invalid_argument | out_of_range =>
            (1, opts, "Error: Invalid width value" ++ newline)
        end
      else if strncmp_is_0 arg "--framerate=" 12 then
        match stoi (advance 12 arg) with
        | stoi_value framerate' =>
            if (framerate' <? MIN_FRAMERATE) || (framerate' >? MAX_FRAMERATE)
            then (1, opts,
                  "Error: Target framerate is out of bounds" ++ newline)
            else getOptions_loop rest
                   (mkOptions (colorMode opts) (targetHeight opts)
                      (targetWidth opts) framerate')
        | invalid_argument | out_of_range =>
            (1, opts, "Error: Invalid framerate value" ++ newline)
        end
      else if (arg =? "--help")%string then (1, opts, printHelp)
      else (1, opts,
            "Unknown option: " ++ arg ++ newline
            ++ "Use --help for usage information" ++ newline)
  end.

(** [getOptions]: [argv[1]] is kept as the video path (the field
    [videoPath] of the source's [Options], returned beside the fields the
    renderer reads), the other arguments go through the loop. *)
Definition getOptions (opts : Options) (argv : list string)
  : Z * (option string * Options) * string :=
  let videoPath := nth_error argv 1 in
  let '(code, opts, cerr) := getOptions_loop (skipn 2 argv) opts in
  (code, (videoPath, opts), cerr).

(** [main]: the exit status, the text on [std::cerr] and the events on the
    terminal; [open] is what constructing a [cv::VideoCapture] on a path
    gives, [None] when [isOpened] is false. The [reserve] of the frame list
    changes its capacity only and is left out. *)
Definition main (open : string -> option VideoCapture)
    (resize_color : Mat Vec3b -> Z * Z -> Mat Vec3b)
    (resize_gray : Mat uchar -> Z * Z -> Mat uchar)
    (cvtColor_BGR2GRAY : Mat Vec3b -> Mat uchar)
    (win32 : bool) (argv : list string) : option (Z * string * Terminal) :=
  let argc := Z.of_nat (List.length argv) in
  if argc <? 2 then
    Some (1, "Usage: ASCIIAnimator <video_path> [options]" ++ newline, [])
  else if (nth 1 argv "" =? "--help")%string then Some (1, printHelp, [])
  else
    let '(code, (_, opts), cerr) := getOptions defaultOptions argv in
    if code =? 1 then Some (1, cerr, [])
    else
      match open (nth 1 argv "") with
      | None => Some (1, "Error: Could not open video" ++ newline, [])
      | Some cap =>
          out <- run resize_color resize_gray cvtColor_BGR2GRAY win32 cap opts ;;
          Some (0, "", out)
      end.

(** * Specification-side definitions *)

(** The glyph of the specification: [gradient[floor(b * (N - 1) / 255)]]. *)
Definition glyph (b : Z) : ascii :=
  nth (Z.to_nat (b * (asciiLen - 1) / 255)) asciiChars " "%char.

(** The integer average of a pixel's channels, [floor((R + G + B) / 3)]. *)
Definition average (r g b : uchar) : Z :=
  (uchar_to_int r + uchar_to_int g + uchar_to_int b) / 3.

(** The classification of the specification, in its priority order. *)
Definition ansiClass (R G B brightness : Z) : string :=
  if brightness <? 30 then Color.BLACK
  else if max3 R G B - min3 R G B <? 20 then
    if 200 <? brightness then Color.BRIGHT_WHITE
    else if 120 <? brightness then Color.WHITE
    else Color.BRIGHT_BLACK
  else if (G <? R) && (B <? R) then
    if 128 <? brightness then Color.BRIGHT_RED else Color.RED
  else if (R <? G) && (B <? G) then
    if 128 <? brightness then Color.BRIGHT_GREEN else Color.GREEN
  else if (R <? B) && (G <? B) then
    if 128 <? brightness then Color.BRIGHT_BLUE else Color.BLUE
  else Color.WHITE.

(** Destructs every integer comparison of the goal and closes what
    arithmetic closes. *)
Ltac zcases :=
  repeat match goal with
    | |- context [?a <? ?b] => destruct (Z.ltb_spec a b)
    end;
  cbn [andb]; try reflexivity; try lia.

Definition unitNone (px : uchar) : string :=
  String (glyph (uchar_to_int px)) "".

Definition unitANSI (px : Vec3b) : string :=
  let '(b, g, r) := px in
  ansiClass (uchar_to_int r) (uchar_to_int g) (uchar_to_int b) (average r g b)
  ++ String (glyph (average r g b)) "" ++ Color.RESET.

Definition unitFull (px : Vec3b) : string :=
  let '(b, g, r) := px in
  ESC ++ "[38;2;" ++ to_string (uchar_to_int r) ++ ";"
  ++ to_string (uchar_to_int g) ++ ";" ++ to_string (uchar_to_int b) ++ "m"
  ++ String (glyph (average r g b)) "" ++ ESC ++ "[0m".

Definition concat_str (l : list string) : string := fold_right append "" l.

(** A matrix of [height] rows of [width] cells each. *)
Definition has_size {A} (m : Mat A) (height width : Z) : Prop :=
  List.length m = Z.to_nat height
  /\ Forall (fun row => List.length row = Z.to_nat width) m.

(** The texts of the cells of a resized grid, row by row, in the mode of
    the options. *)
Definition frameUnits (opts : Options)
    (resizedColor : Mat Vec3b) (resized : Mat uchar) : list (list string) :=
  match colorMode opts with
  | CM_None => map (map unitNone) resized
  | CM_ANSI => map (map unitANSI) resizedColor
  | CM_Full => map (map unitFull) resizedColor
  end.

Fixpoint count_char (c : ascii) (s : string) : nat :=
  match s with
  | EmptyString => 0
  | String a s' => (if Ascii.eqb a c then 1 else 0) + count_char c s'
  end.

Definition LF : ascii := "010"%char.

(** The text of a frame made of the given units: the units of a row one
    after the other, a newline after every row. *)
Definition frameText (units : list (list string)) : string :=
  concat_str (map (fun row => concat_str row ++ newline) units).

(** The grid the renderer reads in the mode of the options has the target
    size. *)
Definition grid_fits (opts : Options) (height width : Z)
    (resizedColor : Mat Vec3b) (resized : Mat uchar) : Prop :=
  match colorMode opts with
  | CM_None => has_size resized height width
  | CM_ANSI | CM_Full => has_size resizedColor height width
  end.

(** What the playback of one frame sends to the terminal. *)
Definition frameEvents (win32 : bool) (ms : Z) (frameStr : string)
  : list Event :=
  (clearScreen win32 [] ++ [Write frameStr; Flush; Sleep ms])%list.

(** The durations of the sleeps of a trace, in order. *)
Fixpoint sleeps (t : Terminal) : list Z :=
  match t with
  | [] => []
  | Sleep ms :: t' => ms :: sleeps t'
  | _ :: t' => sleeps t'
  end.

(** The texts written to the terminal, in order. *)
Fixpoint writes (t : Terminal) : list string :=
  match t with
  | [] => []
  | Write s :: t' => s :: writes t'
  | _ :: t' => writes t'
  end.

(** Whether the cast of the delay of the integer rate [r] is
    [floor(1000 / r)]. *)
Definition sleep_is_floor (r : Z) : bool :=
  match static_cast_int (1000 / int_to_double r)%float with
  | Some ms => ms =? 1000 / r
  | None => false
  end.


(** The text of one decoded frame as a function of the frame, the options
    and the target size alone. *)
Definition renderFrame (resize_color : Mat Vec3b -> Z * Z -> Mat Vec3b)
    (resize_gray : Mat uchar -> Z * Z -> Mat uchar)
    (cvtColor_BGR2GRAY : Mat Vec3b -> Mat uchar)
    (opts : Options) (height width : Z) (frame : Mat Vec3b) : option string :=
  match colorMode opts with
  | CM_ANSI | CM_Full =>
      renderGrid opts height width (resize_color frame (width, height)) []
  | CM_None =>
      renderGrid opts height width []
        (resize_gray (cvtColor_BGR2GRAY frame) (width, height))
  end.

(** All the results, when each is defined. *)
Fixpoint sequence {A} (l : list (option A)) : option (list A) :=
  match l with
  | [] => Some []
  | x :: l' => a <- x ;; r <- sequence l' ;; Some (a :: r)
  end.

(** The value of a decimal numeral read after the digits of [acc]. *)
Fixpoint uint_value (d : Decimal.uint) (acc : Z) : Z :=
  match d with
  | Decimal.Nil => acc
  | Decimal.D0 d' => uint_value d' (10 * acc + 0)
  | Decimal.D1 d' => uint_value d' (10 * acc + 1)
  | Decimal.D2 d' => uint_value d' (10 * acc + 2)
  | Decimal.D3 d' => uint_value d' (10 * acc + 3)
  | Decimal.D4 d' => uint_value d' (10 * acc + 4)
  | Decimal.D5 d' => uint_value d' (10 * acc + 5)
  | Decimal.D6 d' => uint_value d' (10 * acc + 6)
  | Decimal.D7 d' => uint_value d' (10 * acc + 7)
  | Decimal.D8 d' => uint_value d' (10 * acc + 8)
  | Decimal.D9 d' => uint_value d' (10 * acc + 9)
  end.

(** The text begins with a decimal digit. *)
Definition leading_digit (s : string) : bool :=
  match s with
  | String c _ => isdigit c
  | EmptyString => false
  end.

(** Every character of the text is white space. *)
Fixpoint all_space (s : string) : bool :=
  match s with
  | String c s' => isspace c && all_space s'
  | EmptyString => true
  end.

(** The bounds the command line enforces on the options it sets; the
    defaults stand for "auto". *)
Definition validated (opts : Options) : Prop :=
  MIN_HEIGHT <= targetHeight opts <= MAX_HEIGHT
  /\ (targetWidth opts = DEFAULT_TARGET_WIDTH
      \/ MIN_WIDTH <= targetWidth opts <= MAX_WIDTH)
  /\ (framerate opts = -1
      \/ MIN_FRAMERATE <= framerate opts <= MAX_FRAMERATE).

(** The argument begins like one of the four options with a value. *)
Definition known_option (arg : string) : bool :=
  strncmp_is_0 arg "--color=" 8 || strncmp_is_0 arg "--height=" 9
  || strncmp_is_0 arg "--width=" 8 || strncmp_is_0 arg "--framerate=" 12.

(** Neither zero nor a finite number: an infinity or not a number. *)
Definition not_finite (x : spec_float) : bool :=
  match x with
  | S754_infinity _ | S754_nan => true
  | S754_zero _ | S754_finite _ _ _ => false
  end.

(** Every character of the text satisfies [p]. *)
Fixpoint string_forall (p : ascii -> bool) (s : string) : bool :=
  match s with
  | String c s' => p c && string_forall p s'
  | EmptyString => true
  end.

(** A glyph of the gradient or the line terminator. *)
Definition plain_char (c : ascii) : bool :=
  existsb (Ascii.eqb c) asciiChars || Ascii.eqb c LF.

(** Splits a hypothesis on one turn of the loop of [getOptions] into the
    paths the turn can take. *)
Ltac loop_paths H :=
  cbn [getOptions_loop] in H;
  repeat match type of H with
    | context [match stoi ?s with _ => _ end] => destruct (stoi s) eqn:?
    | context [if ?c then _ else _] => destruct c eqn:?
    end;
  try discriminate H.



(** * Basic facts about the primitives *)

Lemma uchar_to_int_range (c : uchar) : 0 <= uchar_to_int c <= 255.
Proof.
  unfold uchar_to_int.
  pose proof (Stdlib.Strings.Byte.to_N_bounded c) as Hc.
  lia.
Qed.

Lemma checked_Some (z : Z) : INT_MIN <= z <= INT_MAX -> checked z = Some z.
Proof.
  intros [Hlo Hhi]. unfold checked, in_int.
  apply Z.leb_le in Hlo. apply Z.leb_le in Hhi.
  now rewrite Hlo, Hhi.
Qed.

Lemma clamp_id (v lo hi : Z) : lo <= v <= hi -> clamp v lo hi = v.
Proof.
  intros [Hlo Hhi]. unfold clamp.
  destruct (Z.ltb_spec v lo); [lia|].
  destruct (Z.ltb_spec hi v); [lia|reflexivity].
Qed.

Lemma clamp_range (v lo hi : Z) : lo <= hi -> lo <= clamp v lo hi <= hi.
Proof.
  intros Hle. unfold clamp.
  destruct (Z.ltb_spec v lo); [lia|].
  destruct (Z.ltb_spec hi v); lia.
Qed.

Lemma array_at_nth {A} (a : list A) (i : Z) (d : A) :
  0 <= i < Z.of_nat (List.length a) ->
  array_at a i = Some (nth (Z.to_nat i) a d).
Proof.
  intros [Hlo Hhi]. unfold array_at.
  apply Z.leb_le in Hlo. rewrite Hlo.
  pose proof Hhi as Hlt. apply Z.ltb_lt in Hhi. rewrite Hhi. simpl.
  apply nth_error_nth'. lia.
Qed.

Lemma array_at_nth_error {A} (a : list A) (n : nat) :
  (n < List.length a)%nat -> array_at a (Z.of_nat n) = nth_error a n.
Proof.
  intros Hn. unfold array_at.
  replace (0 <=? Z.of_nat n) with true by (symmetry; apply Z.leb_le; lia).
  replace (Z.of_nat n <? Z.of_nat (List.length a)) with true
    by (symmetry; apply Z.ltb_lt; lia).
  simpl. now rewrite Nat2Z.id.
Qed.

(** On a brightness in range the scaled product does not overflow, the C++
    division is the floor division and the index is a valid one. *)
Lemma gradient_index_range (b : Z) :
  0 <= b <= 255 -> 0 <= b * (asciiLen - 1) / 255 <= 9.
Proof.
  intros Hb. unfold asciiLen.
  split.
  - apply Z.div_pos; lia.
  - apply Z.div_le_upper_bound; lia.
Qed.

Lemma int_mul_scaled (b : Z) :
  0 <= b <= 255 -> int_mul b (asciiLen - 1) = Some (b * (asciiLen - 1)).
Proof.
  intros Hb. unfold int_mul.
  apply checked_Some. unfold asciiLen, INT_MIN, INT_MAX. lia.
Qed.

Lemma int_div_scaled (b : Z) :
  0 <= b <= 255 ->
  int_div (b * (asciiLen - 1)) 255 = Some (b * (asciiLen - 1) / 255).
Proof.
  intros Hb. unfold int_div.
  change (255 =? 0) with false. cbv iota.
  rewrite Z.quot_div_nonneg by (unfold asciiLen; lia).
  pose proof (gradient_index_range b Hb).
  apply checked_Some. unfold INT_MIN, INT_MAX. lia.
Qed.


Lemma brightnessToAscii_glyph (b : Z) :
  0 <= b <= 255 -> brightnessToAscii b = Some (glyph b).
Proof.
  intros Hb. unfold brightnessToAscii.
  rewrite (int_mul_scaled b Hb). unfold bind at 1.
  rewrite (int_div_scaled b Hb). unfold bind, glyph.
  apply array_at_nth.
  pose proof (gradient_index_range b Hb).
  change (Z.of_nat (List.length asciiChars)) with 10. lia.
Qed.

Lemma average_range (r g b : uchar) : 0 <= average r g b <= 255.
Proof.
  unfold average.
  pose proof (uchar_to_int_range r). pose proof (uchar_to_int_range g).
  pose proof (uchar_to_int_range b).
  split.
  - apply Z.div_pos; lia.
  - apply Z.div_le_upper_bound; lia.
Qed.

(** The brightness the colour modes compute is the floor average, and the
    clamp leaves it as it is. *)
Lemma color_brightness (r g b : uchar) :
  clamp (Z.quot (uchar_to_int r + uchar_to_int g + uchar_to_int b) 3) 0 255
  = average r g b.
Proof.
  pose proof (average_range r g b) as Hr. unfold average in *.
  pose proof (uchar_to_int_range r). pose proof (uchar_to_int_range g).
  pose proof (uchar_to_int_range b).
  rewrite Z.quot_div_nonneg by lia.
  now apply clamp_id.
Qed.

(** * The glyph gradient and the pixel classifier *)

(** C1: for every brightness [b] in [0,255] the brightness-to-glyph mapping
    returns [gradient[floor(b * (N - 1) / 255)]] over the fixed gradient of
    ten glyphs [@ % # * + = - : .] and space; brightness 0 gives [@] and
    brightness 255 gives the space. *)
Theorem brightnessToAscii_gradient (b : Z) (Hb : 0 <= b <= 255) :
  asciiChars = ["@"; "%"; "#"; "*"; "+"; "="; "-"; ":"; "."; " "]%char
  /\ asciiLen = 10
  /\ brightnessToAscii b
     = nth_error asciiChars (Z.to_nat (b * (asciiLen - 1) / 255))
  /\ brightnessToAscii b = Some (glyph b)
  /\ brightnessToAscii 0 = Some "@"%char
  /\ brightnessToAscii 255 = Some " "%char.
Proof.
  repeat split; try reflexivity.
  - rewrite (brightnessToAscii_glyph b Hb). unfold glyph.
    symmetry. apply nth_error_nth'.
    pose proof (gradient_index_range b Hb).
    change (List.length asciiChars) with 10%nat. lia.
  - now apply brightnessToAscii_glyph.
Qed.

Lemma brightnessToAscii_gradient_witness :
  0 <= 128 <= 255 /\ brightnessToAscii 128 = Some "+"%char.
Proof.
  assert (H128 : 0 <= 128 <= 255) by lia.
  split; [exact H128|].
  destruct (brightnessToAscii_gradient 128 H128) as (_ & _ & _ & H & _).
  exact H.
Defined.


Lemma rgbToAnsiColor_ansiClass (R G B brightness : Z) :
  0 <= R <= 255 -> 0 <= G <= 255 -> 0 <= B <= 255 ->
  rgbToAnsiColor R G B brightness = Some (ansiClass R G B brightness).
Proof.
  intros HR HG HB. unfold rgbToAnsiColor, ansiClass.
  unfold Color.DARK_THRESHOLD, Color.GRAYSCALE_VARIANCE, Color.VERY_BRIGHT,
    Color.BRIGHT, Color.MEDIUM_BRIGHT.
  destruct (brightness <? 30); [reflexivity|].
  unfold int_sub.
  rewrite checked_Some by (unfold max3, min3, INT_MIN, INT_MAX; lia).
  unfold bind. rewrite !Z.gtb_ltb.
  destruct (max3 R G B - min3 R G B <? 20).
  - destruct (200 <? brightness); [reflexivity|].
    destruct (120 <? brightness); reflexivity.
  - destruct ((G <? R) && (B <? R)); [reflexivity|].
    destruct ((R <? G) && (B <? G)); [reflexivity|].
    destruct ((R <? B) && (G <? B)); reflexivity.
Qed.

(** C2: in ANSI mode, with brightness the integer average (R+G+B)/3 clamped
    to [0,255], the classifier gives black below 30; else, when max - min is
    below 20, bright-white above 200, white above 120 and bright-black
    otherwise; else the strictly dominant channel, bright above 128 and dim
    otherwise; else white. *)
Theorem rgbToAnsiColor_classification (r g b : uchar) :
  let R := uchar_to_int r in
  let G := uchar_to_int g in
  let B := uchar_to_int b in
  let brightness := clamp (Z.quot (R + G + B) 3) 0 255 in
  let variance := Z.max (Z.max R G) B - Z.min (Z.min R G) B in
  let result := rgbToAnsiColor R G B brightness in
  brightness = (R + G + B) / 3
  /\ (brightness < 30 -> result = Some Color.BLACK)
  /\ (30 <= brightness -> variance < 20 ->
      (200 < brightness -> result = Some Color.BRIGHT_WHITE)
      /\ (120 < brightness <= 200 -> result = Some Color.WHITE)
      /\ (brightness <= 120 -> result = Some Color.BRIGHT_BLACK))
  /\ (30 <= brightness -> 20 <= variance ->
      (R > G /\ R > B ->
       result = Some (if 128 <? brightness
                      then Color.BRIGHT_RED else Color.RED))
      /\ (G > R /\ G > B ->
          result = Some (if 128 <? brightness
                         then Color.BRIGHT_GREEN else Color.GREEN))
      /\ (B > R /\ B > G ->
          result = Some (if 128 <? brightness
                         then Color.BRIGHT_BLUE else Color.BLUE))
      /\ (~ (R > G /\ R > B) -> ~ (G > R /\ G > B) -> ~ (B > R /\ B > G) ->
          result = Some Color.WHITE))
  /\ rgbToAnsiColor 200 20 20 80 = Some Color.RED
  /\ rgbToAnsiColor 150 150 150 150 = Some Color.WHITE
  /\ rgbToAnsiColor 250 250 250 250 = Some Color.BRIGHT_WHITE.
Proof.
  intros R G B brightness variance result.
  pose proof (uchar_to_int_range r) as HR.
  pose proof (uchar_to_int_range g) as HG.
  pose proof (uchar_to_int_range b) as HB.
  fold R in HR. fold G in HG. fold B in HB.
  assert (Hbr : brightness = (R + G + B) / 3)
    by (subst brightness R G B; apply color_brightness).
  assert (Hres : result = Some (ansiClass R G B brightness))
    by (subst result; now apply rgbToAnsiColor_ansiClass).
  clearbody R G B brightness result. subst variance.
  rewrite Hres. unfold ansiClass, max3, min3.
  split; [exact Hbr|].
  split; [intros; zcases|].
  split; [intros ? ?; repeat split; intros; zcases|].
  split; [intros ? ?; repeat split; intros; zcases|].
  repeat split; reflexivity.
Qed.

Lemma rgbToAnsiColor_classification_witness :
  rgbToAnsiColor 200 20 20 80 = Some Color.RED.
Proof.
  pose (r := Byte.xc8). pose (g := Byte.x14).
  destruct (rgbToAnsiColor_classification r g g)
    as (_ & _ & _ & Hdom & _).
  assert (H30 : 30 <= clamp (Z.quot (200 + 20 + 20) 3) 0 255)
    by (vm_compute; discriminate).
  assert (H20 : 20 <= Z.max (Z.max 200 20) 20 - Z.min (Z.min 200 20) 20)
    by (vm_compute; discriminate).
  destruct (Hdom H30 H20) as (Hred & _).
  apply Hred. split; reflexivity.
Defined.

(** * Strings and the text of a pixel *)

Lemma append_assoc (s1 s2 s3 : string) : (s1 ++ s2) ++ s3 = s1 ++ (s2 ++ s3).
Proof.
  induction s1 as [|c s1 IH]; simpl; [reflexivity|now rewrite IH].
Qed.

Lemma append_empty_r (s : string) : s ++ "" = s.
Proof.
  induction s as [|c s IH]; simpl; [reflexivity|now rewrite IH].
Qed.

(** [std::to_string] writes the decimal numeral of its argument: reading the
    text back gives the same integer. *)
Lemma to_string_exact (z : Z) :
  option_map Z.of_int (NilZero.int_of_string (to_string z)) = Some z.
Proof.
  unfold to_string.
  rewrite NilZero.isi.
  - simpl. now rewrite Stdlib.Numbers.DecimalZ.of_to.
  - destruct z as [|p|p]; simpl; try discriminate.
    intros H. injection H as H. now apply DecimalPos.Unsigned.to_uint_nonnil in H.
  - destruct z as [|p|p]; simpl; try discriminate.
    intros H. injection H as H. now apply DecimalPos.Unsigned.to_uint_nonnil in H.
Qed.

(** ** The text of one pixel, per mode *)

Lemma rgbToTrueColor_unit (r g b : uchar) :
  rgbToTrueColor (uchar_to_int r) (uchar_to_int g) (uchar_to_int b)
    (clamp (Z.quot (uchar_to_int r + uchar_to_int g + uchar_to_int b) 3) 0 255)
  = Some (unitFull (b, g, r)).
Proof.
  unfold rgbToTrueColor, unitFull.
  rewrite color_brightness.
  rewrite (brightnessToAscii_glyph _ (average_range r g b)).
  unfold bind. f_equal.
  change Color.TRUECOLOR with (ESC ++ "[38;2;").
  change Color.RESET with (ESC ++ "[0m").
  change ("" ++ (ESC ++ "[38;2;")) with (ESC ++ "[38;2;").
  now rewrite !append_assoc.
Qed.

Lemma emitPixel_None (opts : Options) (crow : list Vec3b) (grow : list uchar)
    (x : Z) (px : uchar) (stream : string) :
  colorMode opts = CM_None -> array_at grow x = Some px ->
  emitPixel opts crow grow x stream = Some (stream ++ unitNone px).
Proof.
  intros Hm Hpx. unfold emitPixel. rewrite Hm, Hpx. unfold bind at 1.
  pose proof (uchar_to_int_range px) as Hr.
  rewrite (clamp_id _ 0 255 Hr).
  rewrite (int_mul_scaled _ Hr). unfold bind at 1.
  rewrite (int_div_scaled _ Hr). unfold bind at 1.
  unfold unitNone, glyph.
  rewrite (array_at_nth asciiChars _ " "%char).
  - reflexivity.
  - pose proof (gradient_index_range _ Hr).
    change (Z.of_nat (List.length asciiChars)) with 10. lia.
Qed.

Lemma emitPixel_ANSI (opts : Options) (crow : list Vec3b) (grow : list uchar)
    (x : Z) (px : Vec3b) (stream : string) :
  colorMode opts = CM_ANSI -> array_at crow x = Some px ->
  emitPixel opts crow grow x stream = Some (stream ++ unitANSI px).
Proof.
  intros Hm Hpx. unfold emitPixel. rewrite Hm, Hpx. unfold bind at 1.
  destruct px as [[b g] r]. unfold unitANSI.
  rewrite color_brightness.
  rewrite rgbToAnsiColor_ansiClass by apply uchar_to_int_range.
  rewrite (brightnessToAscii_glyph _ (average_range r g b)).
  unfold bind. now rewrite !append_assoc.
Qed.

Lemma emitPixel_Full (opts : Options) (crow : list Vec3b) (grow : list uchar)
    (x : Z) (px : Vec3b) (stream : string) :
  colorMode opts = CM_Full -> array_at crow x = Some px ->
  emitPixel opts crow grow x stream = Some (stream ++ unitFull px).
Proof.
  intros Hm Hpx. unfold emitPixel. rewrite Hm, Hpx. unfold bind at 1.
  destruct px as [[b g] r].
  now rewrite rgbToTrueColor_unit.
Qed.

(** C4: in Full mode, with brightness the same integer average as in ANSI
    mode, the text of a pixel is the escape [ESC[38;2;R;G;Bm] with the exact
    channel values, then [glyph(brightness)], then the reset [ESC[0m]; for
    R=12, G=34, B=56 the brightness is 34 and the text is
    [ESC[38;2;12;34;56m], the glyph of 34, [ESC[0m]. *)
Theorem trueColor_emission (r g b : uchar) :
  let R := uchar_to_int r in
  let G := uchar_to_int g in
  let B := uchar_to_int b in
  let brightness := clamp (Z.quot (R + G + B) 3) 0 255 in
  brightness = (R + G + B) / 3
  /\ rgbToTrueColor R G B brightness
     = Some (ESC ++ "[38;2;" ++ to_string R ++ ";" ++ to_string G ++ ";"
             ++ to_string B ++ "m" ++ String (glyph brightness) ""
             ++ ESC ++ "[0m")
  /\ option_map Z.of_int (NilZero.int_of_string (to_string R)) = Some R
  /\ option_map Z.of_int (NilZero.int_of_string (to_string G)) = Some G
  /\ option_map Z.of_int (NilZero.int_of_string (to_string B)) = Some B
  /\ (forall opts crow grow x stream,
         colorMode opts = CM_Full -> array_at crow x = Some (b, g, r) ->
         emitPixel opts crow grow x stream
         = option_map (append stream) (rgbToTrueColor R G B brightness))
  /\ clamp (Z.quot (12 + 34 + 56) 3) 0 255 = 34
  /\ rgbToTrueColor 12 34 56 34
     = Some (ESC ++ "[38;2;12;34;56m" ++ String (glyph 34) "" ++ ESC ++ "[0m")
  /\ glyph 34 = "%"%char.
Proof.
  intros R G B brightness.
  assert (Hbr : brightness = average r g b)
    by (subst brightness R G B; apply color_brightness).
  assert (Hunit : rgbToTrueColor R G B brightness = Some (unitFull (b, g, r)))
    by (subst brightness R G B; apply rgbToTrueColor_unit).
  split; [exact Hbr|].
  split; [rewrite Hunit, Hbr; reflexivity|].
  split; [apply to_string_exact|].
  split; [apply to_string_exact|].
  split; [apply to_string_exact|].
  split.
  - intros opts crow grow x stream Hm Hpx.
    rewrite Hunit. cbn [option_map].
    now apply emitPixel_Full with (px := (b, g, r)).
  - repeat split; reflexivity.
Qed.

Lemma trueColor_emission_witness :
  emitPixel (mkOptions CM_Full 1 1 (-1)) [(Byte.x38, Byte.x22, Byte.x0c)] [] 0 ""
  = Some (ESC ++ "[38;2;12;34;56m%" ++ ESC ++ "[0m").
Proof.
  destruct (trueColor_emission Byte.x0c Byte.x22 Byte.x38)
    as (_ & _ & _ & _ & _ & Hemit & _).
  rewrite (Hemit (mkOptions CM_Full 1 1 (-1))
             [(Byte.x38, Byte.x22, Byte.x0c)] [] 0 "" eq_refl eq_refl).
  reflexivity.
Defined.

(** * Frames *)

(** ** Loops over rows and grids *)

Lemma for_from_append {A} (body : Z -> string -> option string)
    (f : A -> string) (l : list A) :
  forall (i : Z) (acc : string),
    (forall k a s, nth_error l k = Some a ->
                   body (i + Z.of_nat k) s = Some (s ++ f a)) ->
    for_from (List.length l) i body acc = Some (acc ++ concat_str (map f l)).
Proof.
  induction l as [|a l IH]; intros i acc Hbody; simpl.
  - now rewrite append_empty_r.
  - specialize (Hbody 0%nat a acc eq_refl) as Hhead.
    rewrite Z.add_0_r in Hhead. rewrite Hhead. unfold bind.
    rewrite IH.
    + now rewrite append_assoc.
    + intros k a' s Hk.
      replace (i + 1 + Z.of_nat k) with (i + Z.of_nat (S k)) by lia.
      now apply Hbody.
Qed.

Lemma pixels_loop {A} (opts : Options) (crow : list Vec3b) (grow : list uchar)
    (row : list A) (unit : A -> string) (width : Z) (stream : string) :
  List.length row = Z.to_nat width ->
  (forall k a s, nth_error row k = Some a ->
                 emitPixel opts crow grow (Z.of_nat k) s = Some (s ++ unit a)) ->
  for_loop width (emitPixel opts crow grow) stream
  = Some (stream ++ concat_str (map unit row)).
Proof.
  intros Hlen Hpx. unfold for_loop. rewrite <- Hlen.
  now apply for_from_append.
Qed.

Lemma nth_error_array_at {A} (a : list A) (k : nat) (x : A) :
  nth_error a k = Some x -> array_at a (Z.of_nat k) = Some x.
Proof.
  intros Hk. rewrite array_at_nth_error; [exact Hk|].
  apply nth_error_Some. congruence.
Qed.

Lemma emitRow_None (opts : Options) (width : Z) (resizedColor : Mat Vec3b)
    (resized : Mat uchar) (k : nat) (row : list uchar) (stream : string) :
  colorMode opts = CM_None -> nth_error resized k = Some row ->
  List.length row = Z.to_nat width ->
  emitRow opts width resizedColor resized (Z.of_nat k) stream
  = Some (stream ++ (concat_str (map unitNone row) ++ newline)).
Proof.
  intros Hm Hrow Hlen. unfold emitRow, ptr. rewrite Hm. cbn [is_None negb].
  rewrite (nth_error_array_at _ _ _ Hrow). cbn [bind].
  rewrite (pixels_loop opts nullptr row row unitNone width stream Hlen).
  - cbn [bind]. now rewrite append_assoc.
  - intros j a s Hj. apply emitPixel_None; [exact Hm|].
    now apply nth_error_array_at.
Qed.

Lemma emitRow_color (opts : Options) (width : Z) (resizedColor : Mat Vec3b)
    (resized : Mat uchar) (k : nat) (row : list Vec3b) (stream : string)
    (unit : Vec3b -> string) :
  colorMode opts <> CM_None ->
  (forall crow grow x px s, array_at crow x = Some px ->
     emitPixel opts crow grow x s = Some (s ++ unit px)) ->
  nth_error resizedColor k = Some row ->
  List.length row = Z.to_nat width ->
  emitRow opts width resizedColor resized (Z.of_nat k) stream
  = Some (stream ++ (concat_str (map unit row) ++ newline)).
Proof.
  intros Hm Hunit Hrow Hlen. unfold emitRow, ptr.
  replace (is_None (colorMode opts)) with false
    by (destruct (colorMode opts); [contradiction | reflexivity | reflexivity]).
  cbn [negb]. rewrite (nth_error_array_at _ _ _ Hrow). cbn [bind].
  rewrite (pixels_loop opts row nullptr row unit width stream Hlen).
  - cbn [bind]. now rewrite append_assoc.
  - intros j a s Hj. apply Hunit. now apply nth_error_array_at.
Qed.

Lemma rows_loop {A} (opts : Options) (height width : Z)
    (resizedColor : Mat Vec3b) (resized : Mat uchar)
    (grid : Mat A) (unit : A -> string) :
  has_size grid height width ->
  (forall k row s, nth_error grid k = Some row ->
     List.length row = Z.to_nat width ->
     emitRow opts width resizedColor resized (Z.of_nat k) s
     = Some (s ++ (concat_str (map unit row) ++ newline))) ->
  renderGrid opts height width resizedColor resized
  = Some (concat_str (map (fun row => concat_str row ++ newline)
                        (map (map unit) grid))).
Proof.
  intros [Hrows Hcols] Hrow. unfold renderGrid, for_loop.
  rewrite <- Hrows.
  rewrite (for_from_append _
             (fun row => concat_str (map unit row) ++ newline) grid).
  - now rewrite map_map.
  - intros k row s Hk. apply Hrow; [exact Hk|].
    rewrite Forall_forall in Hcols. apply Hcols.
    now apply nth_error_In with k.
Qed.

Lemma renderGrid_units (opts : Options) (height width : Z)
    (resizedColor : Mat Vec3b) (resized : Mat uchar) :
  grid_fits opts height width resizedColor resized ->
  renderGrid opts height width resizedColor resized
  = Some (concat_str (map (fun row => concat_str row ++ newline)
                        (frameUnits opts resizedColor resized))).
Proof.
  unfold grid_fits, frameUnits. intros Hfit.
  destruct (colorMode opts) eqn:Hm.
  - apply rows_loop; [exact Hfit|].
    intros k row s Hk Hlen. now apply emitRow_None.
  - apply rows_loop; [exact Hfit|].
    intros k row s Hk Hlen. apply emitRow_color; try assumption.
    + congruence.
    + intros crow grow x px s' Hpx. now apply emitPixel_ANSI.
  - apply rows_loop; [exact Hfit|].
    intros k row s Hk Hlen. apply emitRow_color; try assumption.
    + congruence.
    + intros crow grow x px s' Hpx. now apply emitPixel_Full.
Qed.

(** ** Line terminators *)

Lemma count_char_append (c : ascii) (s1 s2 : string) :
  count_char c (s1 ++ s2) = (count_char c s1 + count_char c s2)%nat.
Proof.
  induction s1 as [|a s1 IH]; simpl; [reflexivity|]. rewrite IH. lia.
Qed.

Lemma glyph_no_LF (b : Z) : count_char LF (String (glyph b) "") = 0%nat.
Proof.
  unfold glyph.
  destruct (nth_in_or_default (Z.to_nat (b * (asciiLen - 1) / 255))
              asciiChars " "%char) as [Hin | Hd].
  - revert Hin.
    generalize (nth (Z.to_nat (b * (asciiLen - 1) / 255)) asciiChars " "%char).
    intros c Hin. unfold asciiChars in Hin. cbn [In] in Hin.
    repeat (destruct Hin as [Hin | Hin]; [rewrite <- Hin; reflexivity|]).
    contradiction.
  - rewrite Hd. reflexivity.
Qed.

Lemma ansiClass_no_LF (R G B brightness : Z) :
  count_char LF (ansiClass R G B brightness) = 0%nat.
Proof.
  unfold ansiClass.
  repeat match goal with
    | |- context [if ?c then _ else _] => destruct c
    end; reflexivity.
Qed.

Lemma to_string_no_LF (c : uchar) :
  count_char LF (to_string (uchar_to_int c)) = 0%nat.
Proof. destruct c; vm_compute; reflexivity. Qed.

Lemma unitNone_no_LF (px : uchar) : count_char LF (unitNone px) = 0%nat.
Proof. apply glyph_no_LF. Qed.

Lemma unitANSI_no_LF (px : Vec3b) : count_char LF (unitANSI px) = 0%nat.
Proof.
  destruct px as [[b g] r]. unfold unitANSI.
  rewrite !count_char_append, ansiClass_no_LF, glyph_no_LF. reflexivity.
Qed.

Lemma unitFull_no_LF (px : Vec3b) : count_char LF (unitFull px) = 0%nat.
Proof.
  destruct px as [[b g] r]. unfold unitFull.
  rewrite !count_char_append, !to_string_no_LF, glyph_no_LF. reflexivity.
Qed.

Lemma frameUnits_no_LF (opts : Options) (resizedColor : Mat Vec3b)
    (resized : Mat uchar) :
  Forall (Forall (fun u => count_char LF u = 0%nat))
    (frameUnits opts resizedColor resized).
Proof.
  unfold frameUnits.
  destruct (colorMode opts); apply Forall_map, Forall_forall; intros row _;
    apply Forall_map, Forall_forall; intros px _.
  - apply unitNone_no_LF.
  - apply unitANSI_no_LF.
  - apply unitFull_no_LF.
Qed.

Lemma concat_units_no_LF (row : list string) :
  Forall (fun u => count_char LF u = 0%nat) row ->
  count_char LF (concat_str row) = 0%nat.
Proof.
  induction 1 as [|u row Hu _ IH]; simpl; [reflexivity|].
  rewrite count_char_append. lia.
Qed.

Lemma lines_count_LF (units : list (list string)) :
  Forall (Forall (fun u => count_char LF u = 0%nat)) units ->
  count_char LF (concat_str (map (fun row => concat_str row ++ newline) units))
  = List.length units.
Proof.
  induction 1 as [|row units Hrow _ IH]; simpl; [reflexivity|].
  rewrite !count_char_append, (concat_units_no_LF row Hrow), IH.
  reflexivity.
Qed.

Lemma frameUnits_size (opts : Options) (height width : Z)
    (resizedColor : Mat Vec3b) (resized : Mat uchar) :
  grid_fits opts height width resizedColor resized ->
  List.length (frameUnits opts resizedColor resized) = Z.to_nat height
  /\ Forall (fun row => List.length row = Z.to_nat width)
       (frameUnits opts resizedColor resized).
Proof.
  unfold grid_fits, frameUnits, has_size.
  destruct (colorMode opts); intros [Hrows Hcols];
    (split; [now rewrite length_map|]);
    apply Forall_map; (eapply Forall_impl; [|exact Hcols]);
    intros row Hrow; cbv beta; now rewrite length_map.
Qed.

(** ** The loader *)

Lemma for_from_ext {T : Type} (body1 body2 : Z -> T -> option T) :
  (forall i s, body1 i s = body2 i s) ->
  forall count i s, for_from count i body1 s = for_from count i body2 s.
Proof.
  intros Hext. induction count as [|count IH]; intros i s; simpl.
  - reflexivity.
  - rewrite Hext. destruct (body2 i s) as [s'|]; [apply IH|reflexivity].
Qed.

(** In mode None the colour matrix is never read, and in the colour modes
    the grey matrix is never read. *)
Lemma renderGrid_unused_matrix (opts : Options) (height width : Z)
    (color1 color2 : Mat Vec3b) (gray1 gray2 : Mat uchar) :
  (colorMode opts = CM_None -> gray1 = gray2) ->
  (colorMode opts <> CM_None -> color1 = color2) ->
  renderGrid opts height width color1 gray1
  = renderGrid opts height width color2 gray2.
Proof.
  intros Hgray Hcolor. unfold renderGrid, for_loop.
  apply for_from_ext. intros y s. unfold emitRow.
  destruct (colorMode opts) eqn:Hm; cbn [is_None negb].
  - now rewrite Hgray.
  - rewrite Hcolor by discriminate. reflexivity.
  - rewrite Hcolor by discriminate. reflexivity.
Qed.

Lemma loadFrame_pushes (resize_color : Mat Vec3b -> Z * Z -> Mat Vec3b)
    (resize_gray : Mat uchar -> Z * Z -> Mat uchar)
    (cvtColor_BGR2GRAY : Mat Vec3b -> Mat uchar)
    (opts : Options) (height width : Z) (frame : Mat Vec3b) (st : LoadState) :
  option_map asciiFrames
    (loadFrame resize_color resize_gray cvtColor_BGR2GRAY opts height width
       frame st)
  = option_map (fun s => asciiFrames st ++ [s])%list
      (renderFrame resize_color resize_gray cvtColor_BGR2GRAY opts height
         width frame).
Proof.
  unfold loadFrame, renderFrame.
  destruct (colorMode opts) eqn:Hm; cbn [resizedColor resized gray asciiFrames].
  - rewrite (renderGrid_unused_matrix opts height width (resizedColor st) []
               _ (resize_gray (cvtColor_BGR2GRAY frame) (width, height)))
      by (try reflexivity; congruence).
    now destruct (renderGrid _ _ _ _ _).
  - rewrite (renderGrid_unused_matrix opts height width _
               (resize_color frame (width, height)) (resized st) [])
      by (try reflexivity; congruence).
    now destruct (renderGrid _ _ _ _ _).
  - rewrite (renderGrid_unused_matrix opts height width _
               (resize_color frame (width, height)) (resized st) [])
      by (try reflexivity; congruence).
    now destruct (renderGrid _ _ _ _ _).
Qed.

Lemma loadFrames_pushes (resize_color : Mat Vec3b -> Z * Z -> Mat Vec3b)
    (resize_gray : Mat uchar -> Z * Z -> Mat uchar)
    (cvtColor_BGR2GRAY : Mat Vec3b -> Mat uchar)
    (opts : Options) (height width : Z) (frames : list (Mat Vec3b)) :
  forall st,
    option_map asciiFrames
      (loadFrames resize_color resize_gray cvtColor_BGR2GRAY frames opts
         height width st)
    = option_map (app (asciiFrames st))
        (sequence
           (map (renderFrame resize_color resize_gray cvtColor_BGR2GRAY opts
                   height width) frames)).
Proof.
  induction frames as [|frame frames IH]; intros st; simpl.
  - now rewrite app_nil_r.
  - pose proof (loadFrame_pushes resize_color resize_gray cvtColor_BGR2GRAY
                  opts height width frame st) as Hone.
    destruct (loadFrame _ _ _ opts height width frame st) as [st'|];
      destruct (renderFrame _ _ _ opts height width frame) as [s|];
      cbn [option_map bind] in *; try discriminate; try reflexivity.
    injection Hone as Hone. rewrite IH, Hone.
    destruct (sequence _) as [ss|]; cbn [option_map bind]; [|reflexivity].
    now rewrite <- app_assoc.
Qed.

Lemma frameUnits_mode_matrix (opts : Options) (color : Mat Vec3b)
    (gray1 gray2 : Mat uchar) (color1 color2 : Mat Vec3b) (grey : Mat uchar) :
  (colorMode opts <> CM_None ->
   frameUnits opts color gray1 = frameUnits opts color gray2)
  /\ (colorMode opts = CM_None ->
      frameUnits opts color1 grey = frameUnits opts color2 grey).
Proof.
  unfold frameUnits. destruct (colorMode opts); split; intros Hm;
    try reflexivity; try discriminate; contradiction.
Qed.

(** When [cv::resize] returns a matrix of the size it is asked for, the
    text of a frame is defined and is made of the units of the resized
    frame. *)
Lemma renderFrame_units (resize_color : Mat Vec3b -> Z * Z -> Mat Vec3b)
    (resize_gray : Mat uchar -> Z * Z -> Mat uchar)
    (cvtColor_BGR2GRAY : Mat Vec3b -> Mat uchar)
    (opts : Options) (height width : Z) (frame : Mat Vec3b) :
  (forall m, has_size (resize_color m (width, height)) height width) ->
  (forall m, has_size (resize_gray m (width, height)) height width) ->
  renderFrame resize_color resize_gray cvtColor_BGR2GRAY opts height width frame
  = Some (frameText
            (frameUnits opts (resize_color frame (width, height))
               (resize_gray (cvtColor_BGR2GRAY frame) (width, height)))).
Proof.
  intros Hcolor Hgray. unfold renderFrame, frameText.
  destruct (frameUnits_mode_matrix opts (resize_color frame (width, height))
              [] (resize_gray (cvtColor_BGR2GRAY frame) (width, height))
              [] (resize_color frame (width, height))
              (resize_gray (cvtColor_BGR2GRAY frame) (width, height)))
    as [Hc Hn].
  destruct (colorMode opts) eqn:Hm.
  - rewrite <- Hn by reflexivity. apply renderGrid_units.
    unfold grid_fits. rewrite Hm. apply Hgray.
  - rewrite <- Hc by discriminate. apply renderGrid_units.
    unfold grid_fits. rewrite Hm. apply Hcolor.
  - rewrite <- Hc by discriminate. apply renderGrid_units.
    unfold grid_fits. rewrite Hm. apply Hcolor.
Qed.

Lemma sequence_map_Some {A B} (f : A -> option B) (g : A -> B) (l : list A) :
  (forall a, f a = Some (g a)) -> sequence (map f l) = Some (map g l).
Proof.
  intros Hf. induction l as [|a l IH]; simpl; [reflexivity|].
  now rewrite Hf, IH.
Qed.

Lemma loadFrames_total (resize_color : Mat Vec3b -> Z * Z -> Mat Vec3b)
    (resize_gray : Mat uchar -> Z * Z -> Mat uchar)
    (cvtColor_BGR2GRAY : Mat Vec3b -> Mat uchar)
    (opts : Options) (height width : Z) (frames : list (Mat Vec3b))
    (st : LoadState) :
  (forall m, has_size (resize_color m (width, height)) height width) ->
  (forall m, has_size (resize_gray m (width, height)) height width) ->
  exists st',
    loadFrames resize_color resize_gray cvtColor_BGR2GRAY frames opts
      height width st = Some st'
    /\ asciiFrames st'
       = (asciiFrames st
          ++ map (fun frame =>
                    frameText
                      (frameUnits opts (resize_color frame (width, height))
                         (resize_gray (cvtColor_BGR2GRAY frame)
                            (width, height))))
               frames)%list.
Proof.
  intros Hcolor Hgray.
  pose proof (loadFrames_pushes resize_color resize_gray cvtColor_BGR2GRAY
                opts height width frames st) as Hpush.
  rewrite (sequence_map_Some _
             (fun frame =>
                frameText
                  (frameUnits opts (resize_color frame (width, height))
                     (resize_gray (cvtColor_BGR2GRAY frame) (width, height)))))
    in Hpush
    by (intros frame; now apply renderFrame_units).
  destruct (loadFrames _ _ _ frames opts height width st) as [st'|];
    [|discriminate].
  exists st'. split; [reflexivity|].
  cbn [option_map] in Hpush. now injection Hpush.
Qed.

(** C6: every frame the renderer produces consists of exactly [targetHeight]
    lines, each of exactly [targetWidth] glyph or escape-sequence units and
    then a newline, rows from top to bottom and the pixels of a row from
    left to right with nothing between them; a grid of one row and two
    columns with the values 0 and 255 in mode None gives [@], a space and a
    newline. *)
Theorem renderGrid_frame_shape (opts : Options) (height width : Z)
    (resizedColor : Mat Vec3b) (resized : Mat uchar)
    (Hfit : grid_fits opts height width resizedColor resized) :
  let units := frameUnits opts resizedColor resized in
  renderGrid opts height width resizedColor resized
  = Some (concat_str (map (fun row => concat_str row ++ newline) units))
  /\ List.length units = Z.to_nat height
  /\ Forall (fun row => List.length row = Z.to_nat width) units
  /\ Forall (Forall (fun u => count_char LF u = 0%nat)) units
  /\ (forall frame,
        renderGrid opts height width resizedColor resized = Some frame ->
        count_char LF frame = Z.to_nat height)
  /\ (forall resize_color resize_gray cvtColor_BGR2GRAY frames st,
        (forall m, has_size (resize_color m (width, height)) height width) ->
        (forall m, has_size (resize_gray m (width, height)) height width) ->
        exists st',
          loadFrames resize_color resize_gray cvtColor_BGR2GRAY frames opts
            height width st = Some st'
          /\ asciiFrames st'
             = (asciiFrames st
                ++ map (fun frame =>
                          frameText
                            (frameUnits opts
                               (resize_color frame (width, height))
                               (resize_gray (cvtColor_BGR2GRAY frame)
                                  (width, height))))
                     frames)%list)
  /\ renderGrid defaultOptions 1 2 [] [[Byte.x00; Byte.xff]]
     = Some ("@" ++ " " ++ newline).
Proof.
  intros units.
  pose proof (renderGrid_units opts height width resizedColor resized Hfit)
    as Hrender.
  destruct (frameUnits_size opts height width resizedColor resized Hfit)
    as [Hrows Hcols].
  pose proof (frameUnits_no_LF opts resizedColor resized) as Hnl.
  fold units in Hrender, Hrows, Hcols, Hnl.
  split; [exact Hrender|].
  split; [exact Hrows|].
  split; [exact Hcols|].
  split; [exact Hnl|].
  split; [|split].
  - intros frame Hframe. rewrite Hrender in Hframe.
    injection Hframe as <-. rewrite lines_count_LF by exact Hnl.
    exact Hrows.
  - intros. now apply loadFrames_total.
  - reflexivity.
Qed.

Lemma renderGrid_frame_shape_witness :
  renderGrid (mkOptions CM_ANSI 2 1 (-1)) 2 1
    [[(Byte.x00, Byte.x00, Byte.xff)]; [(Byte.xff, Byte.xff, Byte.xff)]] []
  = Some (Color.RED ++ "*" ++ Color.RESET ++ newline
          ++ Color.BRIGHT_WHITE ++ " " ++ Color.RESET ++ newline).
Proof.
  assert (Hfit : grid_fits (mkOptions CM_ANSI 2 1 (-1)) 2 1
                   [[(Byte.x00, Byte.x00, Byte.xff)];
                    [(Byte.xff, Byte.xff, Byte.xff)]] []).
  { split; [reflexivity|]. repeat constructor. }
  destruct (renderGrid_frame_shape _ _ _ _ _ Hfit) as (Hrender & _).
  rewrite Hrender. reflexivity.
Defined.

(** * Playback and timing *)

Lemma clearScreen_app (win32 : bool) (out : Terminal) :
  clearScreen win32 out = (out ++ clearScreen win32 [])%list.
Proof. unfold clearScreen. now destruct win32. Qed.

Lemma animateAscii_trace (win32 : bool) (delayMs : double) (ms : Z)
    (asciiFrames : list string) :
  static_cast_int delayMs = Some ms ->
  forall out,
    animateAscii win32 asciiFrames delayMs out
    = Some (out ++ flat_map (frameEvents win32 ms) asciiFrames)%list.
Proof.
  intros Hms.
  induction asciiFrames as [|frameStr rest IH]; intros out; simpl.
  - now rewrite app_nil_r.
  - rewrite Hms. cbn [bind]. rewrite IH.
    rewrite clearScreen_app. unfold frameEvents.
    f_equal. rewrite <- !app_assoc. reflexivity.
Qed.

Lemma sleeps_app (t1 t2 : Terminal) :
  sleeps (t1 ++ t2)%list = (sleeps t1 ++ sleeps t2)%list.
Proof.
  induction t1 as [|e t1 IH]; simpl; [reflexivity|].
  destruct e; simpl; now rewrite IH.
Qed.

Lemma writes_app (t1 t2 : Terminal) :
  writes (t1 ++ t2)%list = (writes t1 ++ writes t2)%list.
Proof.
  induction t1 as [|e t1 IH]; simpl; [reflexivity|].
  destruct e; simpl; now rewrite IH.
Qed.

Lemma sleeps_playback (win32 : bool) (ms : Z) (asciiFrames : list string) :
  sleeps (flat_map (frameEvents win32 ms) asciiFrames)
  = repeat ms (List.length asciiFrames).
Proof.
  induction asciiFrames as [|f rest IH]; simpl; [reflexivity|].
  rewrite sleeps_app, IH. now destruct win32.
Qed.

Lemma writes_playback (win32 : bool) (ms : Z) (asciiFrames : list string) :
  writes (flat_map (frameEvents win32 ms) asciiFrames)
  = if win32 then asciiFrames
    else flat_map (fun f => [CLEAR_SEQ; f]) asciiFrames.
Proof.
  induction asciiFrames as [|f rest IH]; simpl.
  - now destruct win32.
  - rewrite writes_app, IH. now destruct win32.
Qed.

(** C7: playback shows every frame of the buffer once, in buffer order,
    with no skipping, looping or reordering; for each frame it clears the
    display, writes the whole frame text, flushes, then sleeps, with the same
    delay for every frame, and it ends after the last frame. *)
Theorem animateAscii_in_order (win32 : bool) (asciiFrames : list string)
    (delayMs : double) (ms : Z) (out : Terminal)
    (Hms : static_cast_int delayMs = Some ms) :
  exists trace,
    animateAscii win32 asciiFrames delayMs out = Some (out ++ trace)%list
    /\ trace = flat_map
                 (fun frameStr =>
                    clearScreen win32 [] ++ [Write frameStr; Flush; Sleep ms])%list
                 asciiFrames
    /\ clearScreen win32 []
       = (if win32 then [System "cls"] else [Write CLEAR_SEQ; Flush])
    /\ sleeps trace = repeat ms (List.length asciiFrames)
    /\ writes trace
       = (if win32 then asciiFrames
          else flat_map (fun f => [CLEAR_SEQ; f]) asciiFrames)
    /\ animateAscii win32 [] delayMs out = Some out.
Proof.
  exists (flat_map (frameEvents win32 ms) asciiFrames).
  split; [now apply animateAscii_trace|].
  split; [reflexivity|].
  split; [now destruct win32|].
  split; [apply sleeps_playback|].
  split; [apply writes_playback|reflexivity].
Qed.

Lemma animateAscii_in_order_witness :
  animateAscii false ["a"; "b"] 40%float []
  = Some [Write CLEAR_SEQ; Flush; Write "a"; Flush; Sleep 40;
          Write CLEAR_SEQ; Flush; Write "b"; Flush; Sleep 40].
Proof.
  assert (Hms : static_cast_int 40%float = Some 40) by (vm_compute; reflexivity).
  destruct (animateAscii_in_order false ["a"; "b"] 40%float 40 [] Hms)
    as (trace & Hrun & Htrace & _).
  rewrite Hrun, Htrace. reflexivity.
Defined.

(** ** Doubles *)

Lemma leb_zero_of_not_pos (x : double) :
  is_nan x = false -> (0 <? x)%float = false -> (x <=? 0)%float = true.
Proof.
  unfold is_nan. rewrite ltb_spec, leb_spec, eqb_spec.
  change (Prim2SF 0%float) with (S754_zero false).
  destruct (Prim2SF x) as [s|s| |s m e]; try destruct s; cbn; congruence.
Qed.

Lemma pos_not_leb_zero (x : double) :
  (0 <? x)%float = true -> (x <=? 0)%float = false.
Proof.
  rewrite ltb_spec, leb_spec.
  change (Prim2SF 0%float) with (S754_zero false).
  destruct (Prim2SF x) as [s|s| |s m e]; try destruct s; cbn; congruence.
Qed.

Lemma static_cast_int_truncate (d : double) (z : Z) :
  static_cast_int d = Some z -> truncate d = Some z /\ INT_MIN <= z <= INT_MAX.
Proof.
  unfold static_cast_int, bind, checked, in_int.
  destruct (truncate d) as [t|]; [|discriminate].
  destruct (Z.leb_spec INT_MIN t) as [Hlo|_]; [|discriminate].
  destruct (Z.leb_spec t INT_MAX) as [Hhi|_]; [|discriminate].
  cbn [andb]. intros Heq. injection Heq as <-. split; [reflexivity|lia].
Qed.

(** C5: the delay is derived once, before playback: with a framerate
    override [r] it is [1000 / r] milliseconds (exactly 40 for [r = 25]);
    otherwise it is [1000 / fps] for the reported fps when that is positive,
    and [1000 / 30] when it is not. *)
Theorem getDelayMs_derivation (cap : VideoCapture) (opts : Options) :
  (framerate opts <> -1 ->
   getDelayMs cap opts = (1000 / int_to_double (framerate opts))%float)
  /\ (framerate opts = 25 -> getDelayMs cap opts = 40%float)
  /\ (framerate opts = -1 -> (0 <? CAP_PROP_FPS cap)%float = true ->
      getDelayMs cap opts = (1000 / CAP_PROP_FPS cap)%float)
  /\ (framerate opts = -1 -> is_nan (CAP_PROP_FPS cap) = false ->
      (0 <? CAP_PROP_FPS cap)%float = false ->
      getDelayMs cap opts = (1000 / int_to_double 30)%float
      /\ getDelayMs cap opts = 0x1.0aaaaaaaaaaabp+5%float)
  /\ (forall resize_color resize_gray cvtColor_BGR2GRAY win32,
        run resize_color resize_gray cvtColor_BGR2GRAY win32 cap opts
        = opts' <- getTargetDimensions cap opts ;;
          st <- loadFrames resize_color resize_gray cvtColor_BGR2GRAY
                  (pending cap) opts' (targetHeight opts') (targetWidth opts')
                  initialLoadState ;;
          animateAscii win32 (asciiFrames st) (getDelayMs cap opts) []).
Proof.
  unfold getDelayMs.
  split; [|split; [|split; [|split]]].
  - intros Hr. apply Z.eqb_neq in Hr. now rewrite Hr.
  - intros ->. reflexivity.
  - intros -> Hpos. cbn [Z.eqb negb].
    change (-1 =? -1) with true. cbn [negb].
    now rewrite (pos_not_leb_zero _ Hpos).
  - intros -> Hnan Hnpos.
    change (-1 =? -1) with true. cbn [negb].
    rewrite (leb_zero_of_not_pos _ Hnan Hnpos). split; reflexivity.
  - intros. unfold run.
    destruct (getTargetDimensions cap opts) as [opts'|] eqn:Hgeo;
      [|reflexivity].
    cbn [bind]. unfold getTargetDimensions, bind in Hgeo.
    destruct (if targetWidth opts <=? 0 then _ else _); [|discriminate].
    injection Hgeo as <-. reflexivity.
Qed.

Lemma getDelayMs_derivation_witness :
  getDelayMs (mkCapture 1920%float 1080%float 0%float []) defaultOptions
  = 0x1.0aaaaaaaaaaabp+5%float
  /\ getDelayMs (mkCapture 1920%float 1080%float 24%float []) defaultOptions
     = (1000 / 24)%float
  /\ getDelayMs (mkCapture 1920%float 1080%float 0%float []) (mkOptions CM_None 60 0 25)
     = 40%float.
Proof.
  split; [|split].
  - destruct (getDelayMs_derivation (mkCapture 1920%float 1080%float 0%float []) defaultOptions)
      as (_ & _ & _ & Hdef & _).
    apply (Hdef eq_refl eq_refl eq_refl).
  - destruct (getDelayMs_derivation (mkCapture 1920%float 1080%float 24%float []) defaultOptions)
      as (_ & _ & Hfps & _).
    apply (Hfps eq_refl eq_refl).
  - destruct (getDelayMs_derivation (mkCapture 1920%float 1080%float 0%float [])
                (mkOptions CM_None 60 0 25)) as (_ & H25 & _).
    apply (H25 eq_refl).
Defined.

Lemma sleep_is_floor_integer_rates :
  forallb sleep_is_floor (map Z.of_nat (seq 1 1000)) = true.
Proof. vm_compute. reflexivity. Qed.

Lemma integer_fps_sleep (r : Z) :
  1 <= r <= 1000 ->
  static_cast_int (1000 / int_to_double r)%float = Some (1000 / r).
Proof.
  intros Hr.
  pose proof sleep_is_floor_integer_rates as Hall.
  rewrite forallb_forall in Hall.
  assert (Hin : In r (map Z.of_nat (seq 1 1000))).
  { replace r with (Z.of_nat (Z.to_nat r)) by lia.
    apply in_map, in_seq. lia. }
  specialize (Hall r Hin). unfold sleep_is_floor in Hall.
  destruct (static_cast_int (1000 / int_to_double r)%float) as [ms|];
    [|discriminate].
  f_equal. now apply Z.eqb_eq.
Qed.

Lemma integer_fps_positive (r : Z) :
  1 <= r <= 1000 -> (int_to_double r <=? 0)%float = false.
Proof.
  intros Hr.
  assert (Hall : forallb (fun r => negb (int_to_double r <=? 0)%float)
                   (map Z.of_nat (seq 1 1000)) = true)
    by (vm_compute; reflexivity).
  rewrite forallb_forall in Hall.
  apply negb_true_iff, Hall.
  replace r with (Z.of_nat (Z.to_nat r)) by lia.
  apply in_map, in_seq. lia.
Qed.

Lemma override_sleep (r : Z) :
  MIN_FRAMERATE <= r <= MAX_FRAMERATE ->
  static_cast_int (1000 / int_to_double r)%float = Some (1000 / r).
Proof.
  unfold MIN_FRAMERATE, MAX_FRAMERATE. intros Hr.
  apply integer_fps_sleep. lia.
Qed.

(** C9: what is slept between frames is the delay truncated to whole
    milliseconds (the [double] cast to [int]); for an integer framerate [r]
    the sleep is [floor(1000 / r)] ms, and the default of 30 fps sleeps 33 ms,
    not 33.33. *)
Theorem sleep_truncates_delay (cap : VideoCapture) (opts : Options)
    (Hr : MIN_FRAMERATE <= framerate opts <= MAX_FRAMERATE) :
  static_cast_int (getDelayMs cap opts) = Some (1000 / framerate opts)
  /\ truncate (getDelayMs cap opts) = Some (1000 / framerate opts)
  /\ (forall win32 asciiFrames out,
        exists trace,
          animateAscii win32 asciiFrames (getDelayMs cap opts) out
          = Some (out ++ trace)%list
          /\ sleeps trace
             = repeat (1000 / framerate opts) (List.length asciiFrames))
  /\ (forall cap' opts' r,
        framerate opts' = -1 -> 1 <= r <= 1000 ->
        CAP_PROP_FPS cap' = int_to_double r ->
        static_cast_int (getDelayMs cap' opts') = Some (1000 / r))
  /\ (forall cap' opts',
        framerate opts' = -1 -> (CAP_PROP_FPS cap' <=? 0)%float = true ->
        getDelayMs cap' opts' = 0x1.0aaaaaaaaaaabp+5%float
        /\ getDelayMs cap' opts' <> 33%float
        /\ static_cast_int (getDelayMs cap' opts') = Some 33
        /\ forall win32 asciiFrames out,
             exists trace,
               animateAscii win32 asciiFrames (getDelayMs cap' opts') out
               = Some (out ++ trace)%list
               /\ sleeps trace = repeat 33 (List.length asciiFrames)).
Proof.
  assert (Hcast : static_cast_int (getDelayMs cap opts)
                  = Some (1000 / framerate opts)).
  { unfold getDelayMs.
    replace (framerate opts =? -1) with false
      by (symmetry; apply Z.eqb_neq; unfold MIN_FRAMERATE in Hr; lia).
    cbn [negb]. now apply override_sleep. }
  split; [exact Hcast|].
  split; [now apply static_cast_int_truncate|].
  split.
  - intros win32 asciiFrames out.
    exists (flat_map (frameEvents win32 (1000 / framerate opts)) asciiFrames).
    split; [now apply animateAscii_trace|apply sleeps_playback].
  - split.
    { intros cap' opts' r Hdef Hrange Hfps. unfold getDelayMs.
      rewrite Hdef, Hfps, (integer_fps_positive r Hrange).
      now apply integer_fps_sleep. }
    intros cap' opts' Hdef Hfps.
    assert (Hd : getDelayMs cap' opts' = 0x1.0aaaaaaaaaaabp+5%float).
    { unfold getDelayMs. rewrite Hdef, Hfps. reflexivity. }
    rewrite Hd.
    split; [reflexivity|].
    split.
    { intros Heq.
      apply (f_equal (fun x => PrimFloat.eqb x 33%float)) in Heq.
      vm_compute in Heq. discriminate. }
    split; [vm_compute; reflexivity|].
    intros win32 asciiFrames out.
    exists (flat_map (frameEvents win32 33) asciiFrames).
    split; [|apply sleeps_playback].
    apply animateAscii_trace. vm_compute. reflexivity.
Qed.

Lemma sleep_truncates_delay_witness :
  static_cast_int
    (getDelayMs (mkCapture 1920%float 1080%float 60%float []) (mkOptions CM_None 60 0 7))
  = Some 142.
Proof.
  assert (Hr : MIN_FRAMERATE <= framerate (mkOptions CM_None 60 0 7)
               <= MAX_FRAMERATE) by (vm_compute; split; discriminate).
  destruct (sleep_truncates_delay (mkCapture 1920%float 1080%float 60%float [])
              (mkOptions CM_None 60 0 7) Hr) as (Hcast & _).
  exact Hcast.
Defined.

(** * Geometry *)

(** ** Signs of doubles *)







Lemma getTargetDimensions_bounds (cap : VideoCapture) (opts opts' : Options) :
  getTargetDimensions cap opts = Some opts' ->
  MIN_HEIGHT <= targetHeight opts' <= MAX_HEIGHT
  /\ MIN_WIDTH <= targetWidth opts' <= MAX_WIDTH.
Proof.
  unfold getTargetDimensions, bind.
  destruct (if targetWidth opts <=? 0 then _ else _) as [w|]; [|discriminate].
  intros H. injection H as <-. cbn [targetHeight targetWidth].
  split; apply clamp_range; discriminate.
Qed.





(** In binary64 the quotient [700 / 500] is a little under 1.4, the product
    with 45 rounds under 63, and the derived width is 125; the same
    expression over the rationals is 126. *)
Example derived_width_rounds_in_binary64 :
  getTargetDimensions (mkCapture 700%float 500%float 0%float []) (mkOptions CM_None 45 0 (-1))
  = Some (mkOptions CM_None 45 125 (-1))
  /\ 45 * 700 * 2 / 500 = 126.
Proof. split; vm_compute; reflexivity. Qed.

(** * The loader keeps no state between frames *)

(** C8: rendering is deterministic: the same frame under the same options
    gives the same text, whatever the loader rendered before; the renderer
    is a function of its inputs with no hidden state. *)
Theorem rendering_deterministic
    (resize_color : Mat Vec3b -> Z * Z -> Mat Vec3b)
    (resize_gray : Mat uchar -> Z * Z -> Mat uchar)
    (cvtColor_BGR2GRAY : Mat Vec3b -> Mat uchar)
    (opts : Options) (height width : Z) (frame : Mat Vec3b)
    (st1 st2 : LoadState) :
  let load := loadFrame resize_color resize_gray cvtColor_BGR2GRAY opts
                height width frame in
  let text := renderFrame resize_color resize_gray cvtColor_BGR2GRAY opts
                height width frame in
  option_map asciiFrames (load st1)
  = option_map (fun s => asciiFrames st1 ++ [s])%list text
  /\ option_map asciiFrames (load st2)
     = option_map (fun s => asciiFrames st2 ++ [s])%list text
  /\ option_map asciiFrames
       (loadFrames resize_color resize_gray cvtColor_BGR2GRAY [frame; frame]
          opts height width st1)
     = option_map (fun s => asciiFrames st1 ++ [s; s])%list text
  /\ (forall color1 color2 gray1 gray2,
        (colorMode opts = CM_None -> gray1 = gray2) ->
        (colorMode opts <> CM_None -> color1 = color2) ->
        renderGrid opts height width color1 gray1
        = renderGrid opts height width color2 gray2).
Proof.
  intros load text. subst load text.
  split; [apply loadFrame_pushes|].
  split; [apply loadFrame_pushes|].
  split.
  - rewrite loadFrames_pushes. simpl.
    destruct (renderFrame _ _ _ opts height width frame) as [s|]; reflexivity.
  - intros. now apply renderGrid_unused_matrix.
Qed.

Lemma rendering_deterministic_witness :
  option_map asciiFrames
    (loadFrames (fun _ _ => [[(Byte.x00, Byte.x00, Byte.xff)]])
       (fun _ _ => [[Byte.x00]]) (fun _ => [[Byte.x00]])
       [[]; []] (mkOptions CM_ANSI 1 1 (-1)) 1 1
       (mkLoadState [] [[Byte.xff]] [] ["earlier"]))
  = Some ["earlier"; Color.RED ++ "*" ++ Color.RESET ++ newline;
          Color.RED ++ "*" ++ Color.RESET ++ newline].
Proof.
  destruct (rendering_deterministic
              (fun _ _ => [[(Byte.x00, Byte.x00, Byte.xff)]])
              (fun _ _ => [[Byte.x00]]) (fun _ => [[Byte.x00]])
              (mkOptions CM_ANSI 1 1 (-1)) 1 1 []
              (mkLoadState [] [[Byte.xff]] [] ["earlier"])
              initialLoadState) as (_ & _ & Htwice & _).
  etransitivity; [exact Htwice|reflexivity].
Defined.


(** * The command line *)

(** ** Reading integers *)

Lemma digits_value_stop (rest : string) (acc : Z) :
  leading_digit rest = false -> digits_value rest acc = acc.
Proof.
  destruct rest as [|c rest]; simpl; [reflexivity|].
  now intros ->.
Qed.

Lemma digits_value_uint (d : Decimal.uint) (rest : string) :
  leading_digit rest = false ->
  forall acc,
    digits_value (NilEmpty.string_of_uint d ++ rest) acc = uint_value d acc.
Proof.
  intros Hrest.
  induction d as [|d IH|d IH|d IH|d IH|d IH|d IH|d IH|d IH|d IH|d IH];
    intros acc; cbn [NilEmpty.string_of_uint append uint_value];
    try (now apply digits_value_stop);
    cbn [digits_value]; apply IH.
Qed.

Lemma uint_value_pos (d : Decimal.uint) :
  forall acc, uint_value d (Zpos acc) = Zpos (Pos.of_uint_acc d acc).
Proof.
  induction d as [|d IH|d IH|d IH|d IH|d IH|d IH|d IH|d IH|d IH|d IH];
    intros acc; cbn [uint_value Pos.of_uint_acc]; [reflexivity|..];
    rewrite <- IH; f_equal; lia.
Qed.

Lemma uint_value_0 (d : Decimal.uint) :
  uint_value d 0 = Z.of_N (Pos.of_uint d).
Proof.
  induction d as [|d IH|d IH|d IH|d IH|d IH|d IH|d IH|d IH|d IH|d IH];
    cbn [uint_value Pos.of_uint]; try reflexivity; try exact IH;
    cbn [Z.mul Z.add Z.of_N]; apply uint_value_pos.
Qed.

Lemma uint_value_to_uint (p : positive) :
  uint_value (Pos.to_uint p) 0 = Zpos p.
Proof.
  rewrite uint_value_0, DecimalPos.Unsigned.of_to. reflexivity.
Qed.

Lemma stoi_unsigned (c : ascii) (s : string) :
  isdigit c = true ->
  stoi (String c s)
  = if in_int (digits_value (String c s) 0)
    then stoi_value (digits_value (String c s) 0) else out_of_range.
Proof.
  destruct c as [b0 b1 b2 b3 b4 b5 b6 b7].
  destruct b0, b1, b2, b3, b4, b5, b6, b7; intros Hd;
    vm_compute in Hd; try discriminate Hd; reflexivity.
Qed.

Lemma stoi_minus (c : ascii) (s : string) :
  isdigit c = true ->
  stoi (String "-" (String c s))
  = if in_int (- digits_value (String c s) 0)
    then stoi_value (- digits_value (String c s) 0) else out_of_range.
Proof.
  destruct c as [b0 b1 b2 b3 b4 b5 b6 b7].
  destruct b0, b1, b2, b3, b4, b5, b6, b7; intros Hd;
    vm_compute in Hd; try discriminate Hd; reflexivity.
Qed.

Lemma stoi_plus (c : ascii) (s : string) :
  isdigit c = true -> stoi (String "+" (String c s)) = stoi (String c s).
Proof.
  destruct c as [b0 b1 b2 b3 b4 b5 b6 b7].
  destruct b0, b1, b2, b3, b4, b5, b6, b7; intros Hd;
    vm_compute in Hd; try discriminate Hd; reflexivity.
Qed.

Lemma skip_space_blank (ws s : string) :
  all_space ws = true -> skip_space (ws ++ s) = skip_space s.
Proof.
  induction ws as [|c ws IH]; simpl; [reflexivity|].
  intros H. apply andb_true_iff in H as [Hc Hws].
  rewrite Hc. now apply IH.
Qed.

Lemma stoi_blank (ws s : string) :
  all_space ws = true -> stoi (ws ++ s) = stoi s.
Proof.
  intros Hws. unfold stoi. now rewrite skip_space_blank.
Qed.

Lemma string_of_uint_head (p : positive) :
  exists c s,
    NilZero.string_of_uint (Pos.to_uint p) = String c s
    /\ NilEmpty.string_of_uint (Pos.to_uint p) = String c s
    /\ isdigit c = true.
Proof.
  pose proof (DecimalPos.Unsigned.to_uint_nonnil p) as Hnil.
  destruct (Pos.to_uint p); [contradiction|..];
    eexists; eexists; repeat split; reflexivity.
Qed.

(** Reading back what [std::to_string] wrote, whatever follows it that is
    not a digit. *)
Lemma stoi_to_string (z : Z) (rest : string) :
  leading_digit rest = false ->
  stoi (to_string z ++ rest) = if in_int z then stoi_value z else out_of_range.
Proof.
  intros Hrest. unfold to_string.
  destruct z as [|p|p]; cbn [Z.to_int NilZero.string_of_int].
  - change (NilZero.string_of_uint (Decimal.D0 Decimal.Nil)) with "0".
    cbn [append]. rewrite stoi_unsigned by reflexivity.
    cbn [digits_value]. change (isdigit "0") with true. cbv iota.
    rewrite (digits_value_stop rest _ Hrest). reflexivity.
  - destruct (string_of_uint_head p) as (c & s & Hzero & Hempty & Hc).
    rewrite Hzero. cbn [append]. rewrite stoi_unsigned by exact Hc.
    change (String c (s ++ rest)) with (String c s ++ rest).
    rewrite <- Hempty, (digits_value_uint _ rest Hrest), uint_value_to_uint.
    reflexivity.
  - destruct (string_of_uint_head p) as (c & s & Hzero & Hempty & Hc).
    rewrite Hzero. cbn [append]. rewrite stoi_minus by exact Hc.
    change (String c (s ++ rest)) with (String c s ++ rest).
    rewrite <- Hempty, (digits_value_uint _ rest Hrest), uint_value_to_uint.
    reflexivity.
Qed.

(** ** The options *)

Lemma color_prefix (v : string) :
  strncmp_is_0 ("--color=" ++ v) "--color=" 8 = true
  /\ advance 8 ("--color=" ++ v) = v.
Proof. destruct v; split; reflexivity. Qed.

Lemma height_prefix (v : string) :
  strncmp_is_0 ("--height=" ++ v) "--color=" 8 = false
  /\ strncmp_is_0 ("--height=" ++ v) "--height=" 9 = true
  /\ advance 9 ("--height=" ++ v) = v.
Proof. destruct v; repeat split; reflexivity. Qed.

Lemma width_prefix (v : string) :
  strncmp_is_0 ("--width=" ++ v) "--color=" 8 = false
  /\ strncmp_is_0 ("--width=" ++ v) "--height=" 9 = false
  /\ strncmp_is_0 ("--width=" ++ v) "--width=" 8 = true
  /\ advance 8 ("--width=" ++ v) = v.
Proof. destruct v; repeat split; reflexivity. Qed.

Lemma framerate_prefix (v : string) :
  strncmp_is_0 ("--framerate=" ++ v) "--color=" 8 = false
  /\ strncmp_is_0 ("--framerate=" ++ v) "--height=" 9 = false
  /\ strncmp_is_0 ("--framerate=" ++ v) "--width=" 8 = false
  /\ strncmp_is_0 ("--framerate=" ++ v) "--framerate=" 12 = true
  /\ advance 12 ("--framerate=" ++ v) = v.
Proof. destruct v; repeat split; reflexivity. Qed.

Lemma bounds_checked (v lo hi : Z) :
  (v <? lo) || (v >? hi) = false -> lo <= v <= hi.
Proof.
  intros H. apply orb_false_iff in H as [Hlo Hhi].
  apply Z.ltb_ge in Hlo. rewrite Z.gtb_ltb in Hhi. apply Z.ltb_ge in Hhi.
  lia.
Qed.

Lemma getOptions_loop_validated (args : list string) :
  forall opts opts' cerr,
    validated opts -> getOptions_loop args opts = (0, opts', cerr) ->
    validated opts' /\ cerr = "".
Proof.
  induction args as [|arg rest IH]; intros opts opts' cerr Hv H.
  - cbn in H. injection H as <- <-. now split.
  - destruct Hv as (Hh & Hw & Hf).
    loop_paths H; (apply IH in H; [exact H|]);
      unfold validated; cbn [targetHeight targetWidth framerate];
      (split; [|split]);
      first [ assumption
            | now apply bounds_checked
            | right; now apply bounds_checked ].
Qed.

Lemma getOptions_loop_code (args : list string) :
  forall opts code opts' cerr,
    getOptions_loop args opts = (code, opts', cerr) -> code = 0 \/ code = 1.
Proof.
  induction args as [|arg rest IH]; intros opts code opts' cerr H.
  - cbn in H. injection H as <- _ _. now left.
  - cbn [getOptions_loop] in H.
    repeat match type of H with
      | context [match stoi ?s with _ => _ end] => destruct (stoi s) eqn:?
      | context [if ?c then _ else _] => destruct c eqn:?
      end;
      first [ now apply IH in H | injection H as <- _ _; now right ].
Qed.

Lemma getOptions_loop_known (args : list string) :
  forall opts opts' cerr,
    getOptions_loop args opts = (0, opts', cerr) ->
    Forall (fun arg => known_option arg = true) args.
Proof.
  induction args as [|arg rest IH]; intros opts opts' cerr H.
  - constructor.
  - loop_paths H; (constructor; [|now apply IH in H]); unfold known_option;
      repeat match goal with
        | Heq : strncmp_is_0 _ _ _ = _ |- _ => rewrite Heq; clear Heq
        end; reflexivity.
Qed.

Lemma getOptions_loop_app (args1 args2 : list string) :
  forall opts,
    getOptions_loop (args1 ++ args2)%list opts
    = let '(code, opts1, cerr) := getOptions_loop args1 opts in
      if code =? 0 then getOptions_loop args2 opts1 else (code, opts1, cerr).
Proof.
  induction args1 as [|arg rest IH]; intros opts.
  - reflexivity.
  - cbn [app getOptions_loop].
    repeat match goal with
      | |- context [match stoi ?s with _ => _ end] => destruct (stoi s) eqn:?
      | |- context [if strncmp_is_0 ?a ?b ?n then _ else _] =>
          destruct (strncmp_is_0 a b n) eqn:?
      | |- context [if (?a =? ?b)%string then _ else _] =>
          destruct (a =? b)%string eqn:?
      | |- context [if (?a <? ?b) || ?c then _ else _] =>
          destruct ((a <? b) || c) eqn:?
      end; first [ apply IH | reflexivity ].
Qed.

Lemma not_int_out_of_bounds (n lo hi : Z) :
  INT_MIN <= lo -> hi <= INT_MAX -> in_int n = false ->
  (lo <=? n) && (n <=? hi) = false.
Proof.
  unfold in_int. intros Hlo Hhi Hn.
  apply andb_false_iff in Hn as [Hn | Hn]; apply Z.leb_gt in Hn;
    apply andb_false_iff; [left | right]; apply Z.leb_gt; lia.
Qed.

Lemma bounds_test (n lo hi : Z) :
  (n <? lo) || (n >? hi) = negb ((lo <=? n) && (n <=? hi)).
Proof.
  rewrite Z.gtb_ltb.
  destruct (Z.ltb_spec n lo), (Z.ltb_spec hi n), (Z.leb_spec lo n),
    (Z.leb_spec n hi); try reflexivity; lia.
Qed.

(** X1: when [getOptions] returns 0 on options that were within bounds (as
    the defaults of [main] are), the options it leaves are within bounds:
    the height in [20,120], the width 0 (auto) or in [40,200], the framerate
    -1 (auto) or in [1,120]; nothing was written to [std::cerr] and the video
    path is [argv[1]]. *)
Theorem getOptions_validates (argv : list string) (opts opts' : Options)
    (videoPath : option string) (cerr : string)
    (Hopts : validated opts)
    (Hok : getOptions opts argv = (0, (videoPath, opts'), cerr)) :
  (20 <= targetHeight opts' <= 120)
  /\ (targetWidth opts' = 0 \/ 40 <= targetWidth opts' <= 200)
  /\ (framerate opts' = -1 \/ 1 <= framerate opts' <= 120)
  /\ cerr = ""
  /\ videoPath = nth_error argv 1
  /\ validated defaultOptions.
Proof.
  unfold getOptions in Hok.
  destruct (getOptions_loop (skipn 2 argv) opts) as [[code o] e] eqn:Hloop.
  injection Hok as -> <- -> ->.
  destruct (getOptions_loop_validated _ _ _ _ Hopts Hloop)
    as ((Hh & Hw & Hf) & He).
  split; [exact Hh|]. split; [exact Hw|]. split; [exact Hf|].
  split; [exact He|]. split; [reflexivity|].
  unfold validated, defaultOptions. cbn.
  split; [unfold MIN_HEIGHT, MAX_HEIGHT, DEFAULT_TARGET_HEIGHT; lia|].
  split; now left.
Qed.

Lemma getOptions_validates_witness :
  validated (mkOptions CM_ANSI 33 150 (-1)).
Proof.
  assert (Hparse : getOptions defaultOptions
                     ["prog"; "clip.mp4"; "--width=150"; "--color=ansi";
                      "--height=33"]
                   = (0, (Some "clip.mp4", mkOptions CM_ANSI 33 150 (-1)), ""))
    by (vm_compute; reflexivity).
  assert (Hdef : validated defaultOptions).
  { unfold validated, defaultOptions. cbn.
    split; [unfold MIN_HEIGHT, MAX_HEIGHT, DEFAULT_TARGET_HEIGHT; lia|].
    split; now left. }
  destruct (getOptions_validates _ _ _ _ _ Hdef Hparse)
    as (Hh & Hw & Hf & _).
  unfold validated. split; [exact Hh|]. split; [exact Hw|exact Hf].
Defined.

(** X2: [getOptions] returns 1 as soon as one argument after the video path
    does not begin with [--color=], [--height=], [--width=] or
    [--framerate=], whatever the other arguments are; [--help] is such an
    argument. *)
Theorem getOptions_rejects_unknown (argv : list string) (opts : Options)
    (arg : string)
    (Hin : In arg (skipn 2 argv))
    (Hunknown : known_option arg = false) :
  fst (fst (getOptions opts argv)) = 1
  /\ known_option "--help" = false.
Proof.
  split; [|reflexivity].
  unfold getOptions.
  destruct (getOptions_loop (skipn 2 argv) opts) as [[code o] e] eqn:Hloop.
  cbn [fst].
  destruct (getOptions_loop_code _ _ _ _ _ Hloop) as [-> | ->];
    [|reflexivity].
  apply getOptions_loop_known in Hloop.
  rewrite Forall_forall in Hloop. specialize (Hloop arg Hin).
  congruence.
Qed.

Lemma getOptions_rejects_unknown_witness :
  fst (fst (getOptions defaultOptions
              ["prog"; "clip.mp4"; "--height=40"; "--help"; "--width=50"]))
  = 1.
Proof.
  apply (getOptions_rejects_unknown
           ["prog"; "clip.mp4"; "--height=40"; "--help"; "--width=50"]
           defaultOptions "--help").
  - cbn. right. left. reflexivity.
  - reflexivity.
Defined.

(** X3: the arguments are taken from left to right, each on the options the
    earlier ones left: parsing [args1] then [args2] is parsing [args1] and,
    when that returned 0, parsing [args2] from its result; when [args1]
    fails nothing of [args2] is looked at. *)
Theorem getOptions_left_to_right (args1 args2 : list string) (opts : Options) :
  getOptions_loop (args1 ++ args2)%list opts
  = (let '(code, opts1, cerr) := getOptions_loop args1 opts in
     if code =? 0 then getOptions_loop args2 opts1 else (code, opts1, cerr))
  /\ (forall opts1 cerr,
        getOptions_loop args1 opts = (1, opts1, cerr) ->
        getOptions_loop (args1 ++ args2)%list opts = (1, opts1, cerr))
  /\ (forall opts1 cerr,
        getOptions_loop args1 opts = (0, opts1, cerr) ->
        getOptions_loop (args1 ++ args2)%list opts
        = getOptions_loop args2 opts1).
Proof.
  split; [apply getOptions_loop_app|].
  split; intros opts1 cerr H; rewrite getOptions_loop_app, H; reflexivity.
Qed.

Lemma getOptions_left_to_right_witness :
  getOptions_loop (["--height=30"; "--height=500"] ++ ["--help"])%list
    defaultOptions
  = (1, mkOptions CM_None 30 0 (-1),
     "Error: Target height is out of bounds" ++ newline).
Proof.
  destruct (getOptions_left_to_right ["--height=30"; "--height=500"]
              ["--help"] defaultOptions) as (_ & Hfail & _).
  apply Hfail. vm_compute. reflexivity.
Defined.

Lemma numeric_value_read (n : Z) (ws rest : string) :
  all_space ws = true -> leading_digit rest = false ->
  stoi (ws ++ to_string n ++ rest)
  = if in_int n then stoi_value n else out_of_range.
Proof.
  intros Hws Hrest. rewrite stoi_blank by exact Hws.
  now apply stoi_to_string.
Qed.

(** X4: a numeric option whose value is the decimal numeral of [n], after
    any white space and before any text that does not begin with a digit, is
    accepted exactly when [n] is within the bounds of the option ([20,120]
    for the height, [40,200] for the width, [1,120] for the framerate) and
    then sets the option to [n]; otherwise [getOptions] returns 1 with the
    options unchanged, saying "out of bounds" when [n] is an [int] and
    "Invalid ... value" when it is not. *)
Theorem numeric_option_bounds (n : Z) (ws rest : string)
    (args : list string) (opts : Options)
    (Hws : all_space ws = true) (Hrest : leading_digit rest = false) :
  getOptions_loop (("--height=" ++ ws ++ to_string n ++ rest) :: args) opts
  = (if (20 <=? n) && (n <=? 120)
     then getOptions_loop args
            (mkOptions (colorMode opts) n (targetWidth opts) (framerate opts))
     else (1, opts,
           (if in_int n then "Error: Target height is out of bounds"
            else "Error: Invalid height value") ++ newline))
  /\ getOptions_loop (("--width=" ++ ws ++ to_string n ++ rest) :: args) opts
     = (if (40 <=? n) && (n <=? 200)
        then getOptions_loop args
               (mkOptions (colorMode opts) (targetHeight opts) n
                  (framerate opts))
        else (1, opts,
              (if in_int n then "Error: Target width is out of bounds"
               else "Error: Invalid width value") ++ newline))
  /\ getOptions_loop (("--framerate=" ++ ws ++ to_string n ++ rest) :: args)
       opts
     = (if (1 <=? n) && (n <=? 120)
        then getOptions_loop args
               (mkOptions (colorMode opts) (targetHeight opts)
                  (targetWidth opts) n)
        else (1, opts,
              (if in_int n then "Error: Target framerate is out of bounds"
               else "Error: Invalid framerate value") ++ newline)).
Proof.
  pose proof (numeric_value_read n ws rest Hws Hrest) as Hread.
  split; [|split].
  - destruct (height_prefix (ws ++ to_string n ++ rest)) as (Hc & Hh & Hv).
    cbn [getOptions_loop]. rewrite Hc, Hh, Hv, Hread.
    destruct (in_int n) eqn:Hint.
    + rewrite bounds_test. unfold MIN_HEIGHT, MAX_HEIGHT.
      now destruct ((20 <=? n) && (n <=? 120)).
    + rewrite (not_int_out_of_bounds n 20 120);
        [reflexivity | unfold INT_MIN; lia | unfold INT_MAX; lia | exact Hint].
  - destruct (width_prefix (ws ++ to_string n ++ rest))
      as (Hc & Hh & Hw & Hv).
    cbn [getOptions_loop]. rewrite Hc, Hh, Hw, Hv, Hread.
    destruct (in_int n) eqn:Hint.
    + rewrite bounds_test. unfold MIN_WIDTH, MAX_WIDTH.
      now destruct ((40 <=? n) && (n <=? 200)).
    + rewrite (not_int_out_of_bounds n 40 200);
        [reflexivity | unfold INT_MIN; lia | unfold INT_MAX; lia | exact Hint].
  - destruct (framerate_prefix (ws ++ to_string n ++ rest))
      as (Hc & Hh & Hw & Hf & Hv).
    cbn [getOptions_loop]. rewrite Hc, Hh, Hw, Hf, Hv, Hread.
    destruct (in_int n) eqn:Hint.
    + rewrite bounds_test. unfold MIN_FRAMERATE, MAX_FRAMERATE.
      now destruct ((1 <=? n) && (n <=? 120)).
    + rewrite (not_int_out_of_bounds n 1 120);
        [reflexivity | unfold INT_MIN; lia | unfold INT_MAX; lia | exact Hint].
Qed.

Lemma numeric_option_bounds_witness :
  getOptions_loop ["--height= 50px"] defaultOptions
  = (0, mkOptions CM_None 50 0 (-1), "").
Proof.
  destruct (numeric_option_bounds 50 " " "px" [] defaultOptions
              eq_refl eq_refl) as (Hheight & _).
  exact Hheight.
Defined.

(** X5: the colour option is accepted exactly for the three names [none],
    [ansi] and [full], spelled so and with nothing after them; any other
    value makes [getOptions] return 1 with "Unknown color mode: " and the
    value on [std::cerr], the options unchanged. *)
Theorem color_option_names (mode : string) (args : list string)
    (opts : Options) :
  (mode <> "none" -> mode <> "ansi" -> mode <> "full" ->
   getOptions_loop (("--color=" ++ mode) :: args) opts
   = (1, opts, "Unknown color mode: " ++ mode ++ newline))
  /\ getOptions_loop ("--color=none" :: args) opts
     = getOptions_loop args
         (mkOptions CM_None (targetHeight opts) (targetWidth opts)
            (framerate opts))
  /\ getOptions_loop ("--color=ansi" :: args) opts
     = getOptions_loop args
         (mkOptions CM_ANSI (targetHeight opts) (targetWidth opts)
            (framerate opts))
  /\ getOptions_loop ("--color=full" :: args) opts
     = getOptions_loop args
         (mkOptions CM_Full (targetHeight opts) (targetWidth opts)
            (framerate opts))
  /\ (fst (fst (getOptions_loop ["--color=" ++ mode] opts)) = 0
      <-> mode = "none" \/ mode = "ansi" \/ mode = "full").
Proof.
  assert (Hother : mode <> "none" -> mode <> "ansi" -> mode <> "full" ->
                   getOptions_loop (("--color=" ++ mode) :: args) opts
                   = (1, opts, "Unknown color mode: " ++ mode ++ newline)).
  { intros Hn Ha Hf.
    destruct (color_prefix mode) as (Hc & Hv).
    cbn [getOptions_loop]. rewrite Hc, Hv.
    apply String.eqb_neq in Hn, Ha, Hf. now rewrite Hn, Ha, Hf. }
  split; [exact Hother|].
  repeat (split; [reflexivity|]).
  destruct (color_prefix mode) as (Hc & Hv).
  cbn [getOptions_loop]. rewrite Hc, Hv.
  destruct (String.eqb_spec mode "none") as [->|Hn];
    [split; [now left | reflexivity]|].
  destruct (String.eqb_spec mode "ansi") as [->|Ha];
    [split; [now right; left | reflexivity]|].
  destruct (String.eqb_spec mode "full") as [->|Hf];
    [split; [now right; right | reflexivity]|].
  cbn [fst]. split; [discriminate|].
  intros [H | [H | H]]; contradiction.
Qed.

Lemma color_option_names_witness :
  getOptions_loop ["--color=ANSI"] defaultOptions
  = (1, defaultOptions, "Unknown color mode: ANSI" ++ newline).
Proof.
  destruct (color_option_names "ANSI" [] defaultOptions) as (Hother & _).
  apply Hother; discriminate.
Defined.

(** * More on the geometry *)

Lemma getTargetDimensions_fixed (cap : VideoCapture) (opts : Options) :
  MIN_HEIGHT <= targetHeight opts <= MAX_HEIGHT ->
  MIN_WIDTH <= targetWidth opts <= MAX_WIDTH ->
  getTargetDimensions cap opts = Some opts.
Proof.
  intros Hh Hw. unfold getTargetDimensions.
  replace (targetWidth opts <=? 0) with false
    by (symmetry; apply Z.leb_gt; unfold MIN_WIDTH in Hw; lia).
  cbn [bind]. rewrite (clamp_id _ _ _ Hh), (clamp_id _ _ _ Hw).
  now destruct opts.
Qed.

(** X6: with an explicit width, options within the bounds of the command
    line pass the resolver unchanged whatever the capture reports: the
    source's aspect ratio is not read, so frame sizes of zero, infinity or
    NaN cannot make the cast undefined. *)
Theorem explicit_width_ignores_source (cap : VideoCapture) (opts : Options)
    (Hheight : 20 <= targetHeight opts <= 120)
    (Hwidth : 40 <= targetWidth opts <= 200) :
  getTargetDimensions cap opts = Some opts.
Proof. now apply getTargetDimensions_fixed. Qed.

Lemma explicit_width_ignores_source_witness :
  getTargetDimensions (mkCapture 0%float 0%float 0%float []) (mkOptions CM_Full 25 80 (-1))
  = Some (mkOptions CM_Full 25 80 (-1)).
Proof.
  apply (explicit_width_ignores_source (mkCapture 0%float 0%float 0%float [])
           (mkOptions CM_Full 25 80 (-1))); cbn; lia.
Defined.

(** X7: resolved options are a fixed point of the resolver: resolving them
    again, against any capture, returns them as they are. *)
Theorem getTargetDimensions_idempotent (cap cap' : VideoCapture)
    (opts resolved : Options)
    (Hres : getTargetDimensions cap opts = Some resolved) :
  getTargetDimensions cap' resolved = Some resolved.
Proof.
  destruct (getTargetDimensions_bounds cap opts resolved Hres) as [Hh Hw].
  now apply getTargetDimensions_fixed.
Qed.

Lemma getTargetDimensions_idempotent_witness :
  getTargetDimensions (mkCapture 1%float 1%float 0%float []) (mkOptions CM_None 60 200 (-1))
  = Some (mkOptions CM_None 60 200 (-1)).
Proof.
  apply (getTargetDimensions_idempotent (mkCapture 1920%float 1080%float 30%float [])
           (mkCapture 1%float 1%float 0%float []) (mkOptions CM_None 60 0 (-1))).
  vm_compute. reflexivity.
Defined.

Lemma div_by_zero_not_finite (x y : double) :
  (y =? 0)%float = true -> not_finite (Prim2SF (x / y)%float) = true.
Proof.
  rewrite eqb_spec, div_spec.
  change (Prim2SF 0%float) with (S754_zero false).
  unfold SFeqb, SFcompare, SF64div, SFdiv.
  destruct (Prim2SF y) as [s|s| |s m e]; try destruct s;
    try discriminate; intros _;
    destruct (Prim2SF x) as [sx|sx| |sx mx ex]; reflexivity.
Qed.

Lemma mul_not_finite (x y : double) :
  not_finite (Prim2SF y) = true -> not_finite (Prim2SF (x * y)%float) = true.
Proof.
  rewrite mul_spec. unfold SF64mul, SFmul.
  destruct (Prim2SF y) as [s|s| |s m e]; cbn [not_finite];
    try discriminate; intros _;
    destruct (Prim2SF x) as [sx|sx| |sx mx ex]; reflexivity.
Qed.

Lemma div_half_not_finite (x : double) :
  not_finite (Prim2SF x) = true ->
  not_finite (Prim2SF (x / 0.5)%float) = true.
Proof.
  rewrite div_spec. unfold SF64div, SFdiv.
  set (half := Prim2SF 0.5%float). vm_compute in half. subst half.
  destruct (Prim2SF x) as [sx|sx| |sx mx ex]; cbn [not_finite];
    try discriminate; reflexivity.
Qed.

Lemma not_finite_cast (x : double) :
  not_finite (Prim2SF x) = true -> static_cast_int x = None.
Proof.
  unfold static_cast_int, truncate.
  destruct (Prim2SF x); cbn [not_finite]; try discriminate; reflexivity.
Qed.

(** X8: when the capture reports a frame height of zero and the width is
    left to be derived, the aspect ratio is an infinity or NaN, so is the
    derived width, and its cast to [int] is undefined: the resolver has no
    defined result, whatever the frame width and the requested height. *)
Theorem zero_frame_height_undefined (cap : VideoCapture) (opts : Options)
    (Hzero : (CAP_PROP_FRAME_HEIGHT cap =? 0)%float = true)
    (Hunset : targetWidth opts <= 0) :
  getTargetDimensions cap opts = None
  /\ not_finite
       (Prim2SF (CAP_PROP_FRAME_WIDTH cap / CAP_PROP_FRAME_HEIGHT cap)%float)
     = true.
Proof.
  pose proof (div_by_zero_not_finite (CAP_PROP_FRAME_WIDTH cap) _ Hzero)
    as Haspect.
  split; [|exact Haspect].
  unfold getTargetDimensions. apply Z.leb_le in Hunset. rewrite Hunset.
  rewrite not_finite_cast; [reflexivity|].
  unfold charAspect. apply div_half_not_finite, mul_not_finite, Haspect.
Qed.

Lemma zero_frame_height_undefined_witness :
  getTargetDimensions (mkCapture 0%float 0%float 0%float []) defaultOptions = None.
Proof.
  apply (zero_frame_height_undefined (mkCapture 0%float 0%float 0%float []) defaultOptions).
  - reflexivity.
  - vm_compute. discriminate.
Defined.

(** * More on the glyph gradient *)

Lemma array_at_Some_range {A} (a : list A) (i : Z) :
  array_at a i <> None <-> 0 <= i < Z.of_nat (List.length a).
Proof.
  unfold array_at.
  destruct (Z.leb_spec 0 i) as [Hlo|Hlo];
    destruct (Z.ltb_spec i (Z.of_nat (List.length a))) as [Hhi|Hhi];
    cbn [andb]; split; try lia; try congruence.
  intros _. apply nth_error_Some. lia.
Qed.

(** X9: [brightnessToAscii] reads inside the glyph table exactly for the
    brightness values from -28 to 283: the division truncates toward zero,
    so the values just below 0 still give index 0 and those up to 283 still
    give index 9; every other [int] makes it read out of bounds or overflow
    the product. *)
Theorem brightnessToAscii_defined_range (brightness : Z) :
  brightnessToAscii brightness <> None <-> -28 <= brightness <= 283.
Proof.
  unfold brightnessToAscii, int_mul, int_div, checked, bind.
  change (asciiLen - 1) with 9. change (255 =? 0) with false. cbv iota.
  destruct (in_int (brightness * 9)) eqn:Hmul.
  - assert (Hq : in_int (Z.quot (brightness * 9) 255) = true).
    { unfold in_int, INT_MIN, INT_MAX in *.
      apply andb_true_iff in Hmul as [Hlo Hhi].
      apply Z.leb_le in Hlo, Hhi.
      apply andb_true_iff; split; apply Z.leb_le;
        Z.quot_rem_to_equations; lia. }
    rewrite Hq, array_at_Some_range.
    change (Z.of_nat (List.length asciiChars)) with 10.
    split; intros H; Z.quot_rem_to_equations; lia.
  - split; [congruence|].
    intros H. unfold in_int, INT_MIN, INT_MAX in Hmul.
    apply andb_false_iff in Hmul as [Hmul | Hmul]; apply Z.leb_gt in Hmul;
      lia.
Qed.

Lemma gradient_position (b : Z) :
  0 <= b <= 255 ->
  brightnessToAscii b
  = nth_error asciiChars (Z.to_nat (b * (asciiLen - 1) / 255)).
Proof.
  intros Hb. rewrite (brightnessToAscii_glyph b Hb). unfold glyph.
  symmetry. apply nth_error_nth'.
  pose proof (gradient_index_range b Hb).
  change (List.length asciiChars) with 10%nat. lia.
Qed.

(** X10: over [0,255] the glyph never moves back in the gradient as the
    brightness grows, the ten glyphs are distinct, the densest glyph [@]
    is given to the brightness values up to 28, and the blank to the
    brightness 255 alone. *)
Theorem gradient_monotone (b b' : Z)
    (Hb : 0 <= b <= b') (Hb' : b' <= 255) :
  (exists i j,
      (i <= j)%nat
      /\ brightnessToAscii b = nth_error asciiChars i
      /\ brightnessToAscii b' = nth_error asciiChars j
      /\ (j < List.length asciiChars)%nat)
  /\ NoDup asciiChars
  /\ (brightnessToAscii b = Some "@"%char <-> b <= 28)
  /\ (brightnessToAscii b = Some " "%char <-> b = 255).
Proof.
  assert (Hr : 0 <= b <= 255) by lia.
  assert (Hr' : 0 <= b' <= 255) by lia.
  pose proof (gradient_index_range b Hr) as Hi.
  pose proof (gradient_index_range b' Hr') as Hj.
  split; [|split].
  - exists (Z.to_nat (b * (asciiLen - 1) / 255)),
      (Z.to_nat (b' * (asciiLen - 1) / 255)).
    repeat split; try (now apply gradient_position).
    + apply Z2Nat.inj_le; try lia.
      apply Z.div_le_mono; unfold asciiLen; lia.
    + change (List.length asciiChars) with 10%nat. lia.
  - unfold asciiChars.
    repeat (constructor;
            [cbn [In]; intros H;
             repeat (destruct H as [H | H]; [discriminate H|]); exact H|]).
    constructor.
  - rewrite (gradient_position b Hr).
    change (asciiLen - 1) with 9 in *.
    remember (b * 9 / 255) as q eqn:Hq.
    assert (Hcases : q = 0 \/ q = 1 \/ q = 2 \/ q = 3 \/ q = 4 \/ q = 5
                     \/ q = 6 \/ q = 7 \/ q = 8 \/ q = 9) by lia.
    split;
      (repeat (destruct Hcases as [Hcases | Hcases]);
       rewrite Hcases in *; cbn;
       (split; intros H; try discriminate H; try reflexivity;
        Z.div_mod_to_equations; lia)).
Qed.

Lemma gradient_monotone_witness :
  brightnessToAscii 254 <> Some " "%char.
Proof.
  destruct (gradient_monotone 254 255) as (_ & _ & _ & Hblank); try lia.
  intros H. apply Hblank in H. discriminate H.
Defined.

(** * More on the frames *)

Lemma length_append (s1 s2 : string) :
  String.length (s1 ++ s2) = (String.length s1 + String.length s2)%nat.
Proof.
  induction s1 as [|c s1 IH]; simpl; [reflexivity|now rewrite IH].
Qed.

Lemma row_length_bounds {A} (unit : A -> string) (lo hi : nat) (row : list A) :
  (forall a, lo <= String.length (unit a) <= hi)%nat ->
  (lo * List.length row <= String.length (concat_str (map unit row))
   <= hi * List.length row)%nat.
Proof.
  intros Hunit. induction row as [|a row IH]; simpl; [lia|].
  rewrite length_append. specialize (Hunit a). lia.
Qed.

Lemma frame_length_bounds {A} (unit : A -> string) (lo hi : nat)
    (grid : Mat A) (height width : Z) :
  (forall a, lo <= String.length (unit a) <= hi)%nat ->
  has_size grid height width ->
  (Z.to_nat height * (lo * Z.to_nat width + 1)
   <= String.length (frameText (map (map unit) grid))
   <= Z.to_nat height * (hi * Z.to_nat width + 1))%nat.
Proof.
  intros Hunit [Hrows Hcols]. rewrite <- Hrows. clear Hrows.
  unfold frameText.
  induction Hcols as [|row grid Hrow _ IH]; simpl; [lia|].
  rewrite !length_append.
  pose proof (row_length_bounds unit lo hi row Hunit) as Hlen.
  rewrite Hrow in Hlen. cbn [String.length newline]. nia.
Qed.

Lemma ansiClass_length (R G B brightness : Z) :
  String.length (ansiClass R G B brightness) = 5%nat.
Proof.
  unfold ansiClass.
  repeat match goal with
    | |- context [if ?c then _ else _] => destruct c
    end; reflexivity.
Qed.

Lemma unitANSI_length (px : Vec3b) : String.length (unitANSI px) = 10%nat.
Proof.
  destruct px as [[b g] r]. unfold unitANSI.
  rewrite !length_append, ansiClass_length. reflexivity.
Qed.

Lemma to_string_byte_length (c : uchar) :
  (1 <=? String.length (to_string (uchar_to_int c)))%nat
  && (String.length (to_string (uchar_to_int c)) <=? 3)%nat = true.
Proof. destruct c; vm_compute; reflexivity. Qed.

Lemma unitFull_length (px : Vec3b) :
  (18 <= String.length (unitFull px) <= 24)%nat.
Proof.
  destruct px as [[b g] r]. unfold unitFull.
  rewrite !length_append.
  pose proof (to_string_byte_length r) as Hr.
  pose proof (to_string_byte_length g) as Hg.
  pose proof (to_string_byte_length b) as Hb.
  apply andb_true_iff in Hr as [Hr1 Hr3], Hg as [Hg1 Hg3], Hb as [Hb1 Hb3].
  apply Nat.leb_le in Hr1, Hr3, Hg1, Hg3, Hb1, Hb3.
  cbn [String.length ESC]. lia.
Qed.

(** X11: the size of a frame's text follows from the target size alone: in
    mode None it is [height * (width + 1)] characters, in mode ANSI
    [height * (10 * width + 1)] (a colour code of 5, the glyph, a reset of
    4), and in mode Full between [height * (18 * width + 1)] and
    [height * (24 * width + 1)]. *)
Theorem frame_text_length (opts : Options) (height width : Z)
    (resizedColor : Mat Vec3b) (resized : Mat uchar) (frame : string)
    (Hfit : grid_fits opts height width resizedColor resized)
    (Hframe : renderGrid opts height width resizedColor resized = Some frame) :
  match colorMode opts with
  | CM_None =>
      String.length frame = (Z.to_nat height * (Z.to_nat width + 1))%nat
  | CM_ANSI =>
      String.length frame = (Z.to_nat height * (10 * Z.to_nat width + 1))%nat
  | CM_Full =>
      (Z.to_nat height * (18 * Z.to_nat width + 1) <= String.length frame
       <= Z.to_nat height * (24 * Z.to_nat width + 1))%nat
  end.
Proof.
  rewrite (renderGrid_units _ _ _ _ _ Hfit) in Hframe.
  injection Hframe as <-.
  unfold grid_fits in Hfit. unfold frameUnits.
  destruct (colorMode opts).
  - pose proof (frame_length_bounds unitNone 1 1 resized height width) as H.
    unfold frameText in H.
    specialize (H (fun a => conj (le_n 1) (le_n 1)) Hfit). lia.
  - pose proof (frame_length_bounds unitANSI 10 10 resizedColor height width)
      as H.
    unfold frameText in H.
    assert (Hunit : forall a, (10 <= String.length (unitANSI a) <= 10)%nat)
      by (intros a; rewrite unitANSI_length; lia).
    specialize (H Hunit Hfit). lia.
  - pose proof (frame_length_bounds unitFull 18 24 resizedColor height width)
      as H.
    unfold frameText in H.
    apply (H unitFull_length Hfit).
Qed.

Lemma frame_text_length_witness :
  String.length ("@ " ++ newline ++ ".@" ++ newline) = 6%nat.
Proof.
  assert (Hfit : grid_fits defaultOptions 2 2 []
                   [[Byte.x00; Byte.xff]; [Byte.xfe; Byte.x01]]).
  { split; [reflexivity|]. repeat constructor. }
  assert (Hframe : renderGrid defaultOptions 2 2 []
                     [[Byte.x00; Byte.xff]; [Byte.xfe; Byte.x01]]
                   = Some ("@ " ++ newline ++ ".@" ++ newline))
    by (vm_compute; reflexivity).
  exact (frame_text_length defaultOptions 2 2 []
           [[Byte.x00; Byte.xff]; [Byte.xfe; Byte.x01]] _ Hfit Hframe).
Defined.

(** X12: for a pixel of bytes and a brightness in [0,255], the text
    [rgbToTrueColor] builds has between 18 and 24 characters, so it always
    fits the 32 characters the function reserves. *)
Theorem rgbToTrueColor_fits_reserve (r g b : uchar) (brightness : Z)
    (Hbr : 0 <= brightness <= 255) :
  exists result,
    rgbToTrueColor (uchar_to_int r) (uchar_to_int g) (uchar_to_int b)
      brightness = Some result
    /\ (18 <= String.length result <= 24)%nat
    /\ (String.length result <= 32)%nat.
Proof.
  unfold rgbToTrueColor.
  rewrite (brightnessToAscii_glyph _ Hbr). cbn [bind].
  eexists. split; [reflexivity|].
  rewrite !length_append.
  pose proof (to_string_byte_length r) as Hr.
  pose proof (to_string_byte_length g) as Hg.
  pose proof (to_string_byte_length b) as Hb.
  apply andb_true_iff in Hr as [Hr1 Hr3], Hg as [Hg1 Hg3], Hb as [Hb1 Hb3].
  apply Nat.leb_le in Hr1, Hr3, Hg1, Hg3, Hb1, Hb3.
  cbn [String.length Color.TRUECOLOR Color.RESET]. lia.
Qed.

Lemma rgbToTrueColor_fits_reserve_witness :
  exists result,
    rgbToTrueColor 255 255 255 255 = Some result
    /\ String.length result = 24%nat.
Proof.
  destruct (rgbToTrueColor_fits_reserve Byte.xff Byte.xff Byte.xff 255)
    as (result & Hres & _); [lia|].
  exists result. split; [exact Hres|].
  vm_compute in Hres. injection Hres as <-. reflexivity.
Defined.

Lemma sequence_length {A} (l : list (option A)) :
  forall r, sequence l = Some r -> List.length r = List.length l.
Proof.
  induction l as [|x l IH]; intros r H; simpl in H.
  - injection H as <-. reflexivity.
  - destruct x as [a|]; [|discriminate]. cbn [bind] in H.
    destruct (sequence l) as [r'|]; [|discriminate]. cbn [bind] in H.
    injection H as <-. simpl. now rewrite (IH r').
Qed.

(** X13: the frame list only grows, by one text per decoded frame: whenever
    the loader finishes, whatever the resize step returned, the list it
    leaves is the list it was given followed by exactly as many new texts as
    there were frames to read. *)
Theorem loadFrames_appends (resize_color : Mat Vec3b -> Z * Z -> Mat Vec3b)
    (resize_gray : Mat uchar -> Z * Z -> Mat uchar)
    (cvtColor_BGR2GRAY : Mat Vec3b -> Mat uchar)
    (frames : list (Mat Vec3b)) (opts : Options) (height width : Z)
    (st st' : LoadState)
    (Hload : loadFrames resize_color resize_gray cvtColor_BGR2GRAY frames opts
               height width st = Some st') :
  exists new,
    asciiFrames st' = (asciiFrames st ++ new)%list
    /\ List.length new = List.length frames
    /\ firstn (List.length (asciiFrames st)) (asciiFrames st') = asciiFrames st.
Proof.
  pose proof (loadFrames_pushes resize_color resize_gray cvtColor_BGR2GRAY
                opts height width frames st) as Hpush.
  rewrite Hload in Hpush. cbn [option_map] in Hpush.
  destruct (sequence _) as [new|] eqn:Hseq; [|discriminate].
  cbn [option_map] in Hpush. injection Hpush as Hpush.
  exists new. split; [exact Hpush|]. split.
  - rewrite (sequence_length _ _ Hseq). apply length_map.
  - rewrite Hpush, firstn_app, Nat.sub_diag, firstn_all. cbn [firstn].
    apply app_nil_r.
Qed.

Lemma loadFrames_appends_witness :
  exists new,
    (["first"] ++ new)%list = ["first"; "@" ++ newline; "@" ++ newline]
    /\ List.length new = 2%nat.
Proof.
  assert (Hload : loadFrames (fun _ _ => []) (fun _ _ => [[Byte.x00]])
                    (fun _ => []) [[]; []] defaultOptions 1 1
                    (mkLoadState [] [] [] ["first"])
                  = Some (mkLoadState [] [[Byte.x00]] []
                            ["first"; "@" ++ newline; "@" ++ newline]))
    by (vm_compute; reflexivity).
  destruct (loadFrames_appends _ _ _ _ _ _ _ _ _ Hload)
    as (new & Hnew & Hlen & _).
  exists new. split; [symmetry; exact Hnew|exact Hlen].
Defined.

Lemma string_forall_append (p : ascii -> bool) (s1 s2 : string) :
  string_forall p (s1 ++ s2) = string_forall p s1 && string_forall p s2.
Proof.
  induction s1 as [|c s1 IH]; simpl; [reflexivity|].
  now rewrite IH, andb_assoc.
Qed.

Lemma glyph_in_gradient (b : Z) : In (glyph b) asciiChars.
Proof.
  unfold glyph.
  destruct (nth_in_or_default (Z.to_nat (b * (asciiLen - 1) / 255))
              asciiChars " "%char) as [Hin | ->]; [exact Hin|].
  unfold asciiChars. cbn [In]. tauto.
Qed.

Lemma glyph_plain (b : Z) : plain_char (glyph b) = true.
Proof.
  unfold plain_char. apply orb_true_iff. left.
  apply existsb_exists. exists (glyph b).
  split; [apply glyph_in_gradient|apply Ascii.eqb_refl].
Qed.

Lemma plain_rows (grid : Mat uchar) :
  string_forall plain_char (frameText (map (map unitNone) grid)) = true.
Proof.
  unfold frameText.
  induction grid as [|row grid IH]; simpl; [reflexivity|].
  rewrite !string_forall_append, IH, andb_true_r.
  apply andb_true_iff. split; [|reflexivity].
  induction row as [|px row IHrow]; simpl; [reflexivity|].
  now rewrite glyph_plain, IHrow.
Qed.

(** X14: in mode None a frame holds nothing but glyphs of the gradient and
    line terminators: no escape sequence, no other character. *)
Theorem plain_frame_alphabet (opts : Options) (height width : Z)
    (resizedColor : Mat Vec3b) (resized : Mat uchar) (frame : string)
    (Hmode : colorMode opts = CM_None)
    (Hfit : has_size resized height width)
    (Hframe : renderGrid opts height width resizedColor resized = Some frame) :
  string_forall plain_char frame = true
  /\ count_char "027"%char frame = 0%nat.
Proof.
  assert (Hgrid : grid_fits opts height width resizedColor resized)
    by (unfold grid_fits; now rewrite Hmode).
  rewrite (renderGrid_units _ _ _ _ _ Hgrid) in Hframe.
  injection Hframe as <-. unfold frameUnits. rewrite Hmode.
  pose proof (plain_rows resized) as Hplain. unfold frameText in Hplain.
  split; [exact Hplain|].
  revert Hplain.
  generalize (concat_str
                (map (fun row => concat_str row ++ newline)
                   (map (map unitNone) resized))).
  intros s. induction s as [|c s IH]; simpl; [reflexivity|].
  intros H. apply andb_true_iff in H as [Hc Hs].
  rewrite (IH Hs).
  destruct (Ascii.eqb_spec c "027"%char) as [->|_]; [|reflexivity].
  vm_compute in Hc. discriminate Hc.
Qed.

Lemma plain_frame_alphabet_witness :
  count_char "027"%char ("@ " ++ newline) = 0%nat.
Proof.
  assert (Hfit : has_size [[Byte.x00; Byte.xff]] 1 2)
    by (split; [reflexivity|repeat constructor]).
  destruct (plain_frame_alphabet defaultOptions 1 2 [] [[Byte.x00; Byte.xff]]
              ("@ " ++ newline) eq_refl Hfit eq_refl) as (_ & Hesc).
  exact Hesc.
Defined.

(** * More on playback *)

(** X15: playback is undefined exactly when there is a frame to show and
    the delay does not cast to an [int]; an empty frame list never evaluates
    the cast, so it plays (nothing) under any delay, NaN included. *)
Theorem animateAscii_undefined_iff (win32 : bool) (asciiFrames : list string)
    (delayMs : double) (out : Terminal) :
  (animateAscii win32 asciiFrames delayMs out = None
   <-> asciiFrames <> [] /\ static_cast_int delayMs = None)
  /\ animateAscii win32 [] nan out = Some out.
Proof.
  split; [|reflexivity].
  destruct (static_cast_int delayMs) as [ms|] eqn:Hms.
  - rewrite (animateAscii_trace win32 delayMs ms asciiFrames Hms).
    split; [discriminate|]. intros [_ H]. discriminate H.
  - destruct asciiFrames as [|frameStr rest].
    + split; [discriminate|]. intros [H _]. contradiction.
    + cbn [animateAscii]. rewrite Hms. cbn [bind].
      split; [|reflexivity]. intros _. split; [discriminate|reflexivity].
Qed.

(** * The program as a whole *)

Lemma help_after_path (open : string -> option VideoCapture)
    (resize_color : Mat Vec3b -> Z * Z -> Mat Vec3b)
    (resize_gray : Mat uchar -> Z * Z -> Mat uchar)
    (cvtColor_BGR2GRAY : Mat Vec3b -> Mat uchar)
    (win32 : bool) (prog path : string) (options : list string) :
  path <> "--help" ->
  main open resize_color resize_gray cvtColor_BGR2GRAY win32
    (prog :: path :: options)
  = let '(code, opts, cerr) := getOptions_loop options defaultOptions in
    if code =? 1 then Some (1, cerr, [])
    else
      match open path with
      | None => Some (1, "Error: Could not open video" ++ newline, [])
      | Some cap =>
          out <- run resize_color resize_gray cvtColor_BGR2GRAY win32 cap opts ;;
          Some (0, "", out)
      end.
Proof.
  intros Hpath. unfold main, getOptions.
  replace (Z.of_nat (List.length (prog :: path :: options)) <? 2) with false
    by (symmetry; apply Z.ltb_ge; cbn [List.length]; lia).
  cbn [nth skipn nth_error].
  apply String.eqb_neq in Hpath. rewrite Hpath.
  now destruct (getOptions_loop options defaultOptions) as [[code o] e].
Qed.




(** X17: with valid arguments that set the width and the framerate, a video
    that opens and a resize step that returns the size it is asked for, the
    program has a defined run whatever the capture reports as frame size and
    fps: it exits with status 0, writes nothing to [std::cerr], shows every
    decoded frame once and in order, and sleeps [floor(1000 / framerate)]
    milliseconds, between 8 and 1000, after each. *)
Theorem main_plays_every_frame (open : string -> option VideoCapture)
    (resize_color : Mat Vec3b -> Z * Z -> Mat Vec3b)
    (resize_gray : Mat uchar -> Z * Z -> Mat uchar)
    (cvtColor_BGR2GRAY : Mat Vec3b -> Mat uchar)
    (win32 : bool) (prog path : string) (options : list string)
    (opts : Options) (cerr : string) (cap : VideoCapture)
    (Hpath : path <> "--help")
    (Hparse : getOptions_loop options defaultOptions = (0, opts, cerr))
    (Hwidth : targetWidth opts <> 0)
    (Hrate : framerate opts <> -1)
    (Hopen : open path = Some cap)
    (Hcolor : forall m,
        has_size (resize_color m (targetWidth opts, targetHeight opts))
          (targetHeight opts) (targetWidth opts))
    (Hgray : forall m,
        has_size (resize_gray m (targetWidth opts, targetHeight opts))
          (targetHeight opts) (targetWidth opts)) :
  exists trace,
    main open resize_color resize_gray cvtColor_BGR2GRAY win32
      (prog :: path :: options)
    = Some (0, "", trace)
    /\ trace
       = flat_map (frameEvents win32 (1000 / framerate opts))
           (map (fun frame =>
                   frameText
                     (frameUnits opts
                        (resize_color frame
                           (targetWidth opts, targetHeight opts))
                        (resize_gray (cvtColor_BGR2GRAY frame)
                           (targetWidth opts, targetHeight opts))))
              (pending cap))
    /\ sleeps trace
       = repeat (1000 / framerate opts) (List.length (pending cap))
    /\ 8 <= 1000 / framerate opts <= 1000.
Proof.
  assert (Hdef : validated defaultOptions).
  { unfold validated, defaultOptions. cbn.
    split; [unfold MIN_HEIGHT, MAX_HEIGHT, DEFAULT_TARGET_HEIGHT; lia|].
    split; now left. }
  destruct (getOptions_loop_validated _ _ _ _ Hdef Hparse)
    as ((Hh & Hw & Hf) & _).
  destruct Hw as [Hw | Hw]; [contradiction|].
  destruct Hf as [Hf | Hf]; [contradiction|].
  rewrite help_after_path by exact Hpath.
  rewrite Hparse. change (0 =? 1) with false. cbv iota. rewrite Hopen.
  unfold run. rewrite (getTargetDimensions_fixed cap opts Hh Hw). cbn [bind].
  destruct (loadFrames_total resize_color resize_gray cvtColor_BGR2GRAY opts
              (targetHeight opts) (targetWidth opts) (pending cap)
              initialLoadState Hcolor Hgray) as (st & Hload & Hframes).
  rewrite Hload. cbn [bind].
  assert (Hcast : static_cast_int (getDelayMs cap opts)
                  = Some (1000 / framerate opts)).
  { unfold getDelayMs. apply Z.eqb_neq in Hrate. rewrite Hrate. cbn [negb].
    now apply override_sleep. }
  rewrite (animateAscii_trace win32 _ _ (asciiFrames st) Hcast).
  cbn [bind app]. rewrite Hframes. cbn [asciiFrames initialLoadState app].
  eexists. split; [reflexivity|]. split; [reflexivity|]. split.
  - rewrite sleeps_playback, length_map. reflexivity.
  - unfold MIN_FRAMERATE, MAX_FRAMERATE in Hf.
    split; [apply Z.div_le_lower_bound|apply Z.div_le_upper_bound]; lia.
Qed.

Lemma main_plays_every_frame_witness :
  exists trace,
    main (fun _ => Some (mkCapture nan 0%float nan [[]; []]))
      (fun _ _ => repeat (repeat (Byte.x00, Byte.x00, Byte.xff) 40) 20)
      (fun _ _ => repeat (repeat Byte.x00 40) 20) (fun _ => []) true
      ["prog"; "clip.mp4"; "--width=40"; "--height=20"; "--framerate=24";
       "--color=ansi"]
    = Some (0, "", trace)
    /\ sleeps trace = [41; 41].
Proof.
  destruct (main_plays_every_frame
              (fun _ => Some (mkCapture nan 0%float nan [[]; []]))
              (fun _ _ => repeat (repeat (Byte.x00, Byte.x00, Byte.xff) 40) 20)
              (fun _ _ => repeat (repeat Byte.x00 40) 20) (fun _ => []) true
              "prog" "clip.mp4"
              ["--width=40"; "--height=20"; "--framerate=24"; "--color=ansi"]
              (mkOptions CM_ANSI 20 40 24) ""
              (mkCapture nan 0%float nan [[]; []]))
    as (trace & Hmain & _ & Hsleeps & _).
  - discriminate.
  - vm_compute. reflexivity.
  - discriminate.
  - discriminate.
  - reflexivity.
  - intros m. split; [reflexivity|]. cbn. repeat constructor.
  - intros m. split; [reflexivity|]. cbn. repeat constructor.
  - exists trace. split; [exact Hmain|exact Hsleeps].
Defined.

Lemma animateAscii_app (win32 : bool) (delayMs : double)
    (frames1 frames2 : list string) :
  forall out,
    animateAscii win32 (frames1 ++ frames2)%list delayMs out
    = out1 <- animateAscii win32 frames1 delayMs out ;;
      animateAscii win32 frames2 delayMs out1.
Proof.
  induction frames1 as [|frameStr rest IH]; intros out.
  - reflexivity.
  - cbn [app animateAscii].
    destruct (static_cast_int delayMs) as [ms|]; [|reflexivity].
    cbn [bind]. apply IH.
Qed.

(** X18: playing a frame list is playing its first part and then the rest
    on the terminal as the first part left it: playback carries nothing from
    one frame to the next but the terminal itself, and a part that is
    undefined makes the whole undefined. *)
Theorem animateAscii_splits (win32 : bool) (delayMs : double)
    (frames1 frames2 : list string) (out : Terminal) :
  animateAscii win32 (frames1 ++ frames2)%list delayMs out
  = (out1 <- animateAscii win32 frames1 delayMs out ;;
     animateAscii win32 frames2 delayMs out1)
  /\ (animateAscii win32 frames1 delayMs out = None ->
      animateAscii win32 (frames1 ++ frames2)%list delayMs out = None).
Proof.
  split; [apply animateAscii_app|].
  intros H. now rewrite animateAscii_app, H.
Qed.

Lemma animateAscii_splits_witness :
  animateAscii true (["a"] ++ ["b"])%list infinity [] = None.
Proof.
  destruct (animateAscii_splits true infinity ["a"] ["b"] []) as (_ & Hnone).
  apply Hnone. vm_compute. reflexivity.
Defined.
